(** * benchmark-runner: streaming token extractor and remote progress sink

  A shallow embedding of
    - [benchmark_runner/custom_response_handler.py]
      ([ChatCompletionsWithReasoningResponseHandler.add_streaming_line]),
    - [benchmark_runner/progress.py] ([ServerBenchmarkerProgress]),
    - [guidellm_box/chained_progress.py] ([ChainedBenchmarkerProgress]),
    - [guidellm_box/sharegpt_to_guidellm.py], the dataset adapter and
      [_limit_items] of the output modules,
  together with the properties the design document states about them
  and further properties read off the code.

  Python objects decoded from JSON are modelled by the type [Py.value];
  a Python [dict] with string keys is a [gmap string value].  Exceptions
  are explicit: a computation over a mutable object [S] is a function
  [S -> S * res A], so that the mutations made before a [raise] persist,
  as they do in Python.  Python floats (wall-clock seconds, progress
  percentages) are modelled by exact rationals. *)

From Stdlib Require Import ZArith QArith Qabs Lqa Lia.
From stdpp Require Import base option list strings gmap.

Set Warnings "-register-all".
Local Open Scope Z_scope.

(* ===================================================================== *)
(** ** Python values, truthiness and the few operators the code uses     *)
(* ===================================================================== *)

Module Py.

Inductive value : Type :=
| PNone
| PBool (b : bool)
| PInt (z : Z)
| PFloat (q : Q)
| PStr (s : string)
| PList (l : list value)
| PDict (d : gmap string value).

(** Exceptions: the class and the text [str(e)] renders. *)
Inductive exn_class : Type :=
| AttributeError | TypeError | KeyError | IndexError
| RuntimeError | ClientResponseError | ClientError | JSONDecodeError.

Record exn : Type := Exn { exn_cls : exn_class; exn_str : string }.

Inductive res (A : Type) : Type :=
| Ok (a : A)
| Raise (e : exn).
Arguments Ok {A} a.
Arguments Raise {A} e.

Definition empty_str : string := String.EmptyString.

(** [bool(v)] *)
Definition truthy (v : value) : bool :=
  match v with
  | PNone => false
  | PBool b => b
  | PInt z => negb (z =? 0)
  | PFloat q => negb (Qeq_bool q 0)
  | PStr s => negb (String.eqb s empty_str)
  | PList l => match l with [] => false | _ :: _ => true end
  | PDict d => negb (bool_decide (d = ∅))
  end.

(** [v is None] *)
Definition is_none (v : value) : bool :=
  match v with PNone => true | _ => false end.

(** [a or b]: the first operand when it is truthy, else the second. *)
Definition or_ (a b : value) : value := if truthy a then a else b.

(** Is [s] a substring of [t]?  ([s in t] on two [str]) *)
Fixpoint is_prefix (s t : string) : bool :=
  match s, t with
  | String.EmptyString, _ => true
  | String.String a s', String.String b t' => Ascii.eqb a b && is_prefix s' t'
  | String.String _ _, String.EmptyString => false
  end.

Fixpoint is_substring (s t : string) : bool :=
  is_prefix s t ||
  match t with
  | String.EmptyString => false
  | String.String _ t' => is_substring s t'
  end.

(** [key in container], for a [str] key. *)
Definition contains (key : string) (container : value) : res bool :=
  match container with
  | PDict d => Ok (bool_decide (is_Some (d !! key)))
  | PList l =>
      Ok (existsb (fun v => match v with
                            | PStr s => String.eqb key s
                            | _ => false
                            end) l)
  | PStr t => Ok (is_substring key t)
  | PNone | PBool _ | PInt _ | PFloat _ =>
      Raise (Exn TypeError "argument is not iterable")
  end.

(** [container[key]], for a [str] key. *)
Definition getitem (container : value) (key : string) : res value :=
  match container with
  | PDict d =>
      match d !! key with
      | Some v => Ok v
      | None => Raise (Exn KeyError key)
      end
  | PList _ => Raise (Exn TypeError "list indices must be integers or slices, not str")
  | PStr _ => Raise (Exn TypeError "string indices must be integers, not 'str'")
  | PNone | PBool _ | PInt _ | PFloat _ =>
      Raise (Exn TypeError "object is not subscriptable")
  end.

(** [container[0]] *)
Definition getitem0 (container : value) : res value :=
  match container with
  | PList (x :: _) => Ok x
  | PList [] => Raise (Exn IndexError "list index out of range")
  | PStr (String.String a _) => Ok (PStr (String.String a String.EmptyString))
  | PStr String.EmptyString => Raise (Exn IndexError "string index out of range")
  | PDict _ => Raise (Exn KeyError "0")
  | PNone | PBool _ | PInt _ | PFloat _ =>
      Raise (Exn TypeError "object is not subscriptable")
  end.

(** [obj.get(key, dflt)]: only a [dict] has the method. *)
Definition get (obj : value) (key : string) (dflt : value) : res value :=
  match obj with
  | PDict d => Ok (default dflt (d !! key))
  | _ => Raise (Exn AttributeError "object has no attribute 'get'")
  end.

End Py.

(* ===================================================================== *)
(** ** Computations over a mutable object that may raise                 *)
(* ===================================================================== *)

Module Eff.
Import Py.

Definition M (S A : Type) : Type := S -> S * res A.

Definition ret {S A} (a : A) : M S A := fun s => (s, Ok a).
Definition raise {S A} (e : exn) : M S A := fun s => (s, Raise e).
Definition bind {S A B} (c : M S A) (k : A -> M S B) : M S B :=
  fun s => match c s with
           | (s', Ok a) => k a s'
           | (s', Raise e) => (s', Raise e)
           end.
Definition lift {S A} (r : res A) : M S A := fun s => (s, r).
Definition read {S} : M S S := fun s => (s, Ok s).
Definition modify {S} (f : S -> S) : M S unit := fun s => (f s, Ok tt).

(** [when b c]: [if b: c] *)
Definition when {S} (b : bool) (c : M S unit) : M S unit :=
  if b then c else ret tt.

End Eff.

Declare Scope eff_scope.
Delimit Scope eff_scope with eff.
Notation "'let!' x ':=' c 'in' k" := (Eff.bind c (fun x => k))
  (at level 10, x name, c at level 100, k at level 200, only parsing) : eff_scope.
Notation "'do!' c 'in' k" := (Eff.bind c (fun _ => k))
  (at level 10, c at level 100, k at level 200, only parsing) : eff_scope.

(* ===================================================================== *)
(** ** custom_response_handler.py                                        *)
(* ===================================================================== *)

Module Handler.
Import Py Eff.

(** The attributes of the handler object that [add_streaming_line] reads
    and writes. *)
Record handler : Type := Handler {
  streaming_texts : list value;
  streaming_response_id : value;
  streaming_usage : value
}.

Definition set_streaming_response_id (v : value) (self : handler) : handler :=
  {| streaming_texts := streaming_texts self;
     streaming_response_id := v;
     streaming_usage := streaming_usage self |}.

Definition append_streaming_texts (v : value) (self : handler) : handler :=
  {| streaming_texts := streaming_texts self ++ [v];
     streaming_response_id := streaming_response_id self;
     streaming_usage := streaming_usage self |}.

Definition set_streaming_usage (v : value) (self : handler) : handler :=
  {| streaming_texts := streaming_texts self;
     streaming_response_id := streaming_response_id self;
     streaming_usage := v |}.

Section AddStreamingLine.
Local Open Scope eff_scope.

(** The two methods inherited from the base handler of the benchmarking
    library; they are not part of this repository and stay abstract. *)
Variable extract_line_data : string -> res value.
Variable extract_choices_and_usage : value -> res (value * value).

(** The body of [if choices:]. *)
Definition detect_token (choice : value) : M handler bool :=
  let! delta := lift (get choice "delta" (PDict ∅)) in
  let! content := lift (get delta "content" PNone) in
  let! reasoning_content := lift (get delta "reasoning_content" PNone) in
  if negb (is_none content) || negb (is_none reasoning_content) then
    do! modify (append_streaming_texts
                  (or_ (or_ content reasoning_content) (PStr empty_str))) in
    ret true
  else ret false.

(** [add_streaming_line]: [Some 1] and [Some 0] are the integers, [None]
    is Python's [None]. *)
Definition add_streaming_line (line : string) : M handler (option Z) :=
  let! data := lift (extract_line_data line) in
  if negb (truthy data) then
    ret (if is_none data then None else Some 0)
  else
    let! has_id := lift (contains "id" data) in
    let! self := read in
    do! (if has_id && is_none (streaming_response_id self) then
           let! v := lift (getitem data "id") in
           modify (set_streaming_response_id v)
         else ret tt) in
    let! cu := lift (extract_choices_and_usage data) in
    let choices := fst cu in
    let usage := snd cu in
    let! choice :=
      lift (if truthy choices then getitem0 choices else Ok (PDict ∅)) in
    let! updated :=
      (if truthy choices then detect_token choice else ret false) in
    do! when (truthy usage) (modify (set_streaming_usage usage)) in
    ret (Some (if updated : bool then 1 else 0)).

(** Any sequence of calls on one handler object: the lines are fed in
    order; what a call returns or raises does not undo what it wrote. *)
Definition feed (lines : list string) (self : handler) : handler :=
  fold_left (fun h line => fst (add_streaming_line line h)) lines self.

(** Computations that leave the response identifier alone. *)
Definition keeps_id {A} (c : M handler A) : Prop :=
  forall s, streaming_response_id (fst (c s)) = streaming_response_id s.

(** What [add_streaming_line] does once the identifier is dealt with. *)
Definition after_id (data : value) : M handler (option Z) :=
  let! cu := lift (extract_choices_and_usage data) in
  let choices := fst cu in
  let usage := snd cu in
  let! choice :=
    lift (if truthy choices then getitem0 choices else Ok (PDict ∅)) in
  let! updated :=
    (if truthy choices then detect_token choice else ret false) in
  do! when (truthy usage) (modify (set_streaming_usage usage)) in
  ret (Some (if updated : bool then 1 else 0)).

(** The test and the operand of [streaming_texts.append] in the token step. *)
Definition token_detected (content reasoning_content : value) : bool :=
  negb (is_none content) || negb (is_none reasoning_content).

Definition fragment (content reasoning_content : value) : value :=
  or_ (or_ content reasoning_content) (PStr empty_str).

(** Choices the token step runs on without raising: none at all, or a
    list whose first element is an object whose [delta], when it has
    one, is an object. *)
Definition well_formed_choices (choices : value) : bool :=
  negb (truthy choices) ||
  match choices with
  | PList (PDict cd :: _) =>
      match cd !! "delta" with
      | None | Some (PDict _) => true
      | Some _ => false
      end
  | _ => false
  end.

(** The identifier a line carries: the value under the key [id] of a
    decoded object, [None] for anything else. *)
Definition carried_id (line : string) : value :=
  match extract_line_data line with
  | Ok (PDict d) => default PNone (d !! "id")
  | _ => PNone
  end.

(** The first value of a list that is not [None]. *)
Fixpoint first_not_none (vs : list value) : value :=
  match vs with
  | [] => PNone
  | v :: vs' => if is_none v then first_not_none vs' else v
  end.

End AddStreamingLine.

(** Stand-ins for the inherited methods, used in the worked examples: a
    line is looked up in a table of decoded payloads (the end-of-stream
    marker decodes to [None], an unknown line to the empty object), and
    the choices and the usage record are the fields of those names. *)
Definition done_marker : string := "data: [DONE]".

Definition table_extract_line_data (table : gmap string value)
    (line : string) : res value :=
  if String.eqb line done_marker then Ok PNone
  else Ok (default (PDict ∅) (table !! line)).

Definition field_extract_choices_and_usage (data : value)
    : res (value * value) :=
  match get data "choices" (PList []), get data "usage" (PDict ∅) with
  | Ok choices, Ok usage => Ok (choices, usage)
  | Raise e, _ => Raise e
  | _, Raise e => Raise e
  end.

Definition fresh : handler :=
  {| streaming_texts := []; streaming_response_id := PNone;
     streaming_usage := PNone |}.

(** A payload object with one choice whose delta is [delta]. *)
Definition chunk (delta : gmap string value) : value :=
  PDict {[ "choices" := PList [PDict {[ "delta" := PDict delta ]}] ]}.

(** Decoded payloads for the worked examples. *)
Definition sample_lines : gmap string value :=
  {[ "first" := chunk {[ "content" := PStr empty_str ]};
     "null"  := chunk {[ "content" := PNone ]};
     "both"  := chunk {[ "content" := PStr "A";
                         "reasoning_content" := PStr "B" ]};
     "think" := chunk {[ "content" := PStr empty_str;
                         "reasoning_content" := PStr "B" ]};
     "usage" := PDict {[ "usage" := PDict {[ "total_tokens" := PInt 3 ]} ]};
     "role"  := PDict {[ "object" := PStr "chat.completion.chunk" ]};
     "id1"   := PDict {[ "id" := PStr "chatcmpl-1" ]};
     "id2"   := PDict {[ "id" := PStr "chatcmpl-2" ]} ]}.

Definition sample_extract_line_data : string -> res value :=
  table_extract_line_data sample_lines.

(** Payloads that carry a usage record: a filled one, an empty one, and
    a filled one next to a choice whose delta is null. *)
Definition usage_lines : gmap string value :=
  {[ "usage3" := PDict {[ "usage" := PDict {[ "total_tokens" := PInt 3 ]} ]};
     "usage_empty" := PDict {[ "usage" := PDict ∅ ]};
     "usage_null_delta" :=
       PDict {[ "choices" := PList [PDict {[ "delta" := PNone ]}];
                "usage" := PDict {[ "total_tokens" := PInt 7 ]} ]} ]}.

Definition usage_extract_line_data : string -> res value :=
  table_extract_line_data usage_lines.

End Handler.

(* ===================================================================== *)
(** ** progress.py                                                       *)
(* ===================================================================== *)

Module Progress.
Import Py Eff.
Local Open Scope Q_scope.
Local Open Scope eff_scope.

(** The HTTP session object: the headers and the total timeout it was
    built with, and whether [close()] was called on it. *)
Record ClientSession : Type := {
  headers : gmap string string;
  timeout_total : Q;
  closed : bool
}.

Record ServerBenchmarkerProgress : Type := {
  progress_url : string;
  progress_auth : option string;
  session : option ClientSession;
  _last_update_ts : Q;
  _last_progress : Q
}.

Definition __init__ (url : string) (auth : option string)
    : ServerBenchmarkerProgress :=
  {| progress_url := url; progress_auth := auth; session := None;
     _last_update_ts := 0; _last_progress := -1 |}.

(** One [PATCH url] with the body [{"progress": progress}]. *)
Record request : Type := Patch { req_url : string; req_progress : Q }.

(** What the remote end does with a request: it answers with a status
    code, or the transport fails with an exception. *)
Inductive reply : Type :=
| Status (code : Z)
| Failure (e : exn).

(** The sink object together with the requests it has put on the wire. *)
Record world : Type := World {
  self : ServerBenchmarkerProgress;
  wire : list request
}.

Definition set_session (s : option ClientSession) (w : world) : world :=
  {| self := {| progress_url := progress_url (self w);
                progress_auth := progress_auth (self w);
                session := s;
                _last_update_ts := _last_update_ts (self w);
                _last_progress := _last_progress (self w) |};
     wire := wire w |}.

Definition set_last_progress (p : Q) (w : world) : world :=
  {| self := {| progress_url := progress_url (self w);
                progress_auth := progress_auth (self w);
                session := session (self w);
                _last_update_ts := _last_update_ts (self w);
                _last_progress := p |};
     wire := wire w |}.

Definition set_last_update_ts (t : Q) (w : world) : world :=
  {| self := {| progress_url := progress_url (self w);
                progress_auth := progress_auth (self w);
                session := session (self w);
                _last_update_ts := t;
                _last_progress := _last_progress (self w) |};
     wire := wire w |}.

Definition send (r : request) (w : world) : world :=
  {| self := self w; wire := wire w ++ [r] |}.

(** [try: c  except Exception as e: h e] *)
Definition try_except {S A} (c : M S A) (h : exn -> M S A) : M S A :=
  fun s => match c s with
           | (s', Raise e) => h e s'
           | r => r
           end.

Section Sink.

(** The environment of one call: the wall clock ([time.time()], in
    seconds) and the remote end. *)
Variable now : Q.
Variable net : request -> reply.

(** [session.patch(url, json={"progress": progress})]: a closed session
    refuses the request before anything is sent. *)
Definition session_patch (s : ClientSession) (url : string) (progress : Q)
    : M world Z :=
  if closed s then raise (Exn RuntimeError "Session is closed")
  else
    let r := Patch url progress in
    do! modify (send r) in
    match net r with
    | Status code => ret code
    | Failure e => raise e
    end.

(** [resp.raise_for_status()]: statuses from 400 on raise; the text of
    the exception, which the HTTP library composes, is kept abstract. *)
Definition raise_for_status (code : Z) : res unit :=
  if (400 <=? code)%Z then Raise (Exn ClientResponseError "bad status")
  else Ok tt.

Definition should_update (me : ServerBenchmarkerProgress) (progress : Q)
    : bool :=
  Qle_bool 1 (now - _last_update_ts me)
  || Qle_bool 100 progress
  || Qle_bool 2 (progress - _last_progress me).

Definition _update_progress (progress : Q) : M world unit :=
  let! w := read in
  match session (self w) with
  | None => ret tt
  | Some sess =>
      if negb (should_update (self w) progress) then ret tt
      else
        try_except
          (let! code := session_patch sess (progress_url (self w)) progress in
           do! lift (raise_for_status code) in
           do! modify (set_last_progress progress) in
           modify (set_last_update_ts now))
          (fun e => raise (Exn RuntimeError
             ("Failed to update progress to server: " ++ exn_str e)))
  end.

Definition on_initialize : M world unit :=
  let! w := read in
  match session (self w) with
  | None =>
      let hdrs : gmap string string :=
        match progress_auth (self w) with
        | Some a => {[ "Authorization" := ("Bearer " ++ a)%string ]}
        | None => ∅
        end in
      modify (set_session
                (Some {| headers := hdrs; timeout_total := 60;
                         closed := false |}))
  | Some _ => ret tt
  end.

Definition on_benchmark_start : M world unit := _update_progress 0.

Definition on_benchmark_update (remaining_fraction : option Q)
    : M world unit :=
  let progress :=
    match remaining_fraction with
    | Some rf => (1 - rf) * 100
    | None => 0
    end in
  _update_progress progress.

Definition on_benchmark_complete : M world unit := _update_progress 100.

Definition on_finalize : M world unit :=
  let! w := read in
  match session (self w) with
  | None => raise (Exn AttributeError
                     "'NoneType' object has no attribute 'close'")
  | Some s =>
      modify (set_session
                (Some {| headers := headers s;
                         timeout_total := timeout_total s;
                         closed := true |}))
  end.

End Sink.

(** The throttle rule in the words of the design document: a push goes
    out when a second has passed, or the value differs from the last one
    sent by two points or more, or the value is at least 100. *)
Definition stated_rule (now last_ts progress last_progress : Q) : Prop :=
  1 <= now - last_ts \/ 2 <= Qabs (progress - last_progress) \/ 100 <= progress.

(** A sink whose last push carried [p] at time [t], over an open session. *)
Definition pushed (url : string) (t p : Q) : world :=
  {| self := {| progress_url := url; progress_auth := None;
                session := Some {| headers := ∅; timeout_total := 60;
                                   closed := false |};
                _last_update_ts := t; _last_progress := p |};
     wire := [] |}.

(** Remote ends for the worked examples. *)
Definition always_ok (_ : request) : reply := Status 200.
Definition always_503 (_ : request) : reply := Status 503.
Definition unreachable (_ : request) : reply :=
  Failure (Exn ClientError "Cannot connect to host").

Definition open_session : ClientSession :=
  {| headers := ∅; timeout_total := 60; closed := false |}.

End Progress.

(* ===================================================================== *)
(** ** The calls a sink receives over a run                              *)
(* ===================================================================== *)

Module Lifecycle.
Import Py Eff Progress.
Local Open Scope Q_scope.

(** One method call on the sink, looked up by name as the chained
    progress does: the method and, for [on_benchmark_update], the
    remaining fraction the scheduler state holds. *)
Inductive method_call : Type :=
| Call_on_initialize
| Call_on_benchmark_start
| Call_on_benchmark_update (remaining_fraction : option Q)
| Call_on_benchmark_complete
| Call_on_finalize.

(** A call together with the clock reading and the remote end it meets. *)
Record step : Type := Step {
  step_now : Q;
  step_net : request -> reply;
  step_call : method_call
}.

Definition invoke (s : step) : M world unit :=
  match step_call s with
  | Call_on_initialize => on_initialize
  | Call_on_benchmark_start => on_benchmark_start (step_now s) (step_net s)
  | Call_on_benchmark_update rf =>
      on_benchmark_update (step_now s) (step_net s) rf
  | Call_on_benchmark_complete =>
      on_benchmark_complete (step_now s) (step_net s)
  | Call_on_finalize => on_finalize
  end.

(** The sink after a sequence of calls; what a call raises does not undo
    what it wrote. *)
Definition after_calls (steps : list step) (w : world) : world :=
  fold_left (fun w s => fst (invoke s w)) steps w.

(** The value [on_benchmark_update] computes from the remaining fraction. *)
Definition update_progress_value (remaining_fraction : option Q) : Q :=
  match remaining_fraction with
  | Some rf => (1 - rf) * 100
  | None => 0
  end.

(** The value a call pushes, when it is a push. *)
Definition pushed_value (c : method_call) : option Q :=
  match c with
  | Call_on_benchmark_start => Some 0
  | Call_on_benchmark_update rf => Some (update_progress_value rf)
  | Call_on_benchmark_complete => Some 100
  | Call_on_initialize | Call_on_finalize => None
  end.

Definition is_initialize (c : method_call) : bool :=
  match c with Call_on_initialize => true | _ => false end.


Definition failure_text : string := "Failed to update progress to server: ".


(** Calls on a sink that is never initialised. *)
Definition uninitialised_run : list step :=
  [ Step 1001 always_ok Call_on_benchmark_start;
    Step 1002 always_ok (Call_on_benchmark_update (Some 0.5));
    Step 1003 always_ok Call_on_benchmark_complete;
    Step 1004 always_ok Call_on_finalize;
    Step 1005 always_ok Call_on_benchmark_complete ].

End Lifecycle.

(* ===================================================================== *)
(** ** Further notions for the streaming handler                         *)
(* ===================================================================== *)

Module HandlerMore.
Import Py Eff Handler.

(** [if usage: self.streaming_usage = usage] *)
Definition store_usage (usage : value) (self : handler) : handler :=
  if truthy usage then set_streaming_usage usage self else self.

Definition is_dict (v : value) : bool :=
  match v with PDict _ => true | _ => false end.

(** Does the line decode to a payload, that is, to something truthy? *)
Definition has_payload (extract_line_data : string -> res value)
    (line : string) : bool :=
  match extract_line_data line with
  | Ok data => truthy data
  | Raise _ => false
  end.

(** Payloads for the worked examples: a chunk whose delta is null next
    to a usage record, and two usage chunks, the second with a null. *)
Definition odd_lines : gmap string value :=
  {[ "nulldelta" :=
       PDict {[ "id" := PStr "chatcmpl-9";
                "choices" := PList [PDict {[ "delta" := PNone ]}];
                "usage" := PDict {[ "total_tokens" := PInt 7 ]} ]};
     "usage7" := PDict {[ "usage" := PDict {[ "total_tokens" := PInt 7 ]} ]};
     "usagenull" := PDict {[ "choices" := PList []; "usage" := PNone ]};
     "hello" := chunk {[ "content" := PStr "Hello" ]} ]}.

Definition odd_extract_line_data : string -> res value :=
  table_extract_line_data odd_lines.

End HandlerMore.

(* ===================================================================== *)
(** ** sharegpt_to_guidellm.py                                           *)
(* ===================================================================== *)

Module Res.
Import Py.

Definition bind {A B} (r : res A) (k : A -> res B) : res B :=
  match r with
  | Ok a => k a
  | Raise e => Raise e
  end.

End Res.

Declare Scope res_scope.
Delimit Scope res_scope with res.
Notation "'let?' x ':=' c 'in' k" := (Res.bind c (fun x => k))
  (at level 10, x name, c at level 100, k at level 200, only parsing) : res_scope.

Module PySeq.
Import Py.

(** [len(v)]; a [str] is the sequence of its characters. *)
Definition len (v : value) : res Z :=
  match v with
  | PList l => Ok (Z.of_nat (length l))
  | PStr s => Ok (Z.of_nat (String.length s))
  | PDict d => Ok (Z.of_nat (size d))
  | PNone | PBool _ | PInt _ | PFloat _ =>
      Raise (Exn TypeError "object has no len()")
  end.

(** [v[i]] for an index [i] that is not negative. *)
Definition index (v : value) (i : nat) : res value :=
  match v with
  | PList l =>
      match l !! i with
      | Some x => Ok x
      | None => Raise (Exn IndexError "list index out of range")
      end
  | PStr s =>
      match String.get i s with
      | Some a => Ok (PStr (String.String a String.EmptyString))
      | None => Raise (Exn IndexError "string index out of range")
      end
  | PDict _ => Raise (Exn KeyError "integer key")
  | PNone | PBool _ | PInt _ | PFloat _ =>
      Raise (Exn TypeError "object is not subscriptable")
  end.

(** [v == s] for a [str] literal [s]. *)
Definition eq_str (v : value) (s : string) : bool :=
  match v with
  | PStr t => String.eqb t s
  | _ => false
  end.

(** [v in (a, b)] for two [str] literals. *)
Definition in_pair (v : value) (a b : string) : bool :=
  eq_str v a || eq_str v b.

End PySeq.

Module ShareGPT.
Import Py PySeq.
Local Open Scope res_scope.

Definition extract_first_turn (sample : value)
    : res (option (value * value)) :=
  let? conversations := get sample "conversations" PNone in
  if negb (truthy conversations) then Ok None else
  let? n := len conversations in
  if (n <? 2)%Z then Ok None else
  let? first := index conversations 0 in
  let? second := index conversations 1 in
  let? from1 := get first "from" PNone in
  if negb (in_pair from1 "human" "user") then Ok None else
  let? from2 := get second "from" PNone in
  if negb (in_pair from2 "gpt" "assistant") then Ok None else
  let? prompt := get first "value" PNone in
  let? completion := get second "value" PNone in
  if negb (truthy prompt) || negb (truthy completion) then Ok None
  else Ok (Some (prompt, completion)).

(** What the converter keeps while it walks the dataset. *)
Record progress_counters : Type := Counters {
  records : list value;
  written : Z;
  skipped : Z;
  idx : Z
}.

Definition start : progress_counters :=
  {| records := []; written := 0; skipped := 0; idx := 0 |}.

(** What the loop keeps true of its counters. *)
Definition counted (st : progress_counters) : Prop :=
  (written st = Z.of_nat (length (records st)) /\
   0 <= skipped st /\
   written st + skipped st = idx st)%Z.

Section Converter.

(** [count_tokens(tokenizer, text)] for the tokenizer that was loaded;
    the tokenizer library is not part of this repository. *)
Variable count_tokens : value -> res Z.

Definition build_guidellm_record (prompt completion : value) : res value :=
  let? output_tokens := count_tokens completion in
  Ok (PDict {[ "text" := prompt;
               "output_tokens_count" := PInt output_tokens ]}).

(** The loop of [convert_sharegpt_to_guidellm] over the samples of the
    dataset (the log lines are left out); it ends at the end of the
    dataset or at the [break]. *)
Fixpoint convert_loop (max_items : option Z) (samples : list value)
    (st : progress_counters) : res progress_counters :=
  match samples with
  | [] => Ok st
  | sample :: rest =>
      let? result := extract_first_turn sample in
      match result with
      | None =>
          convert_loop max_items rest
            {| records := records st; written := written st;
               skipped := skipped st + 1; idx := idx st + 1 |}
      | Some (prompt, completion) =>
          let? record := build_guidellm_record prompt completion in
          let st' := {| records := records st ++ [record];
                        written := written st + 1;
                        skipped := skipped st; idx := idx st + 1 |} in
          if match max_items with
             | Some m => (written st' =? m)%Z
             | None => false
             end
          then Ok st'
          else convert_loop max_items rest st'
      end
  end.

(** The statistics returned and the records handed to the writer. *)
Record conversion : Type := Conversion {
  stat_written : Z;
  stat_skipped : Z;
  output_records : list value
}.

Definition convert_sharegpt_to_guidellm (dataset : list value)
    (max_items : option Z) : res conversion :=
  let? st := convert_loop max_items dataset start in
  Ok {| stat_written := written st; stat_skipped := skipped st;
        output_records := records st |}.

(** The first turn of a sample, when it has one. *)
Definition first_turn (sample : value) : option (value * value) :=
  match extract_first_turn sample with
  | Ok (Some pc) => Some pc
  | _ => None
  end.

(** The cap [max_items] puts on a list: the first [m] elements when [m]
    is at least 1, the whole list otherwise. *)
Definition capped {A} (max_items : option Z) (l : list A) : list A :=
  match max_items with
  | Some m => if (1 <=? m)%Z then firstn (Z.to_nat m) l else l
  | None => l
  end.

End Converter.

(** A tokenizer for the worked examples: one token per character of a
    string, none for anything else. *)
Definition char_count (text : value) : Z :=
  match text with
  | PStr s => Z.of_nat (String.length s)
  | _ => 0%Z
  end.

Definition sample_count_tokens (text : value) : res Z := Ok (char_count text).

Definition turn (from_ value_ : string) : value :=
  PDict {[ "from" := PStr from_; "value" := PStr value_ ]}.

Definition conversation (turns : list value) : value :=
  PDict {[ "id" := PStr "c"; "conversations" := PList turns ]}.

Definition sample_dataset : list value :=
  [ conversation [turn "human" "Hi"; turn "gpt" "Hello!"; turn "human" "Bye"];
    conversation [turn "system" "Be brief"; turn "human" "Hi"];
    conversation [turn "human" "One turn only"];
    conversation [turn "user" "2+2?"; turn "assistant" "4"];
    PDict {[ "id" := PStr "no conversations" ]};
    conversation [turn "human" "Again"; turn "gpt" "Sure"] ].

Definition guidellm_record (prompt : string) (output_tokens : Z) : value :=
  PDict {[ "text" := PStr prompt; "output_tokens_count" := PInt output_tokens ]}.

End ShareGPT.

(* ===================================================================== *)
(** ** output_summary_json.py, output_dual_json.py: [_limit_items]       *)
(* ===================================================================== *)

Module Output.
Import Py.

(** [list(items)[: max(limit, 0)]], or all the items without a limit. *)
Definition _limit_items (items : list value) (limit : option Z) : list value :=
  match limit with
  | None => items
  | Some l => firstn (Z.to_nat (Z.max l 0)) items
  end.

End Output.

(* ===================================================================== *)
(** ** sharegpt_adapter.py                                               *)
(* ===================================================================== *)

Module Adapter.
Import Py.
Local Open Scope res_scope.

(** [str.lower()] on the letters A to Z; other characters stay. *)
Definition lower_char (a : Ascii.ascii) : Ascii.ascii :=
  let n := Ascii.nat_of_ascii a in
  if (65 <=? n)%nat && (n <=? 90)%nat then Ascii.ascii_of_nat (n + 32) else a.

Fixpoint lower (s : string) : string :=
  match s with
  | String.EmptyString => String.EmptyString
  | String.String a s' => String.String (lower_char a) (lower s')
  end.

(** [s.endswith(suffix)] *)
Definition endswith (s suffix : string) : bool :=
  let n := String.length s in
  let k := String.length suffix in
  (k <=? n)%nat && String.eqb (String.substring (n - k) k s) suffix.

(** [ShareGPTAdapter.supports] *)
Definition supports (source : string) : bool :=
  (endswith source ".json" || endswith source ".jsonl")
  && is_substring "sharegpt" (lower source).

Section PrepareDatasets.

(** [ShareGPTAdapter.prepare] for the tokenizer and the [max_items] of
    the call; it works on files and stays abstract. *)
Variable prepare : string -> res (list string).

(** The loop of [prepare_datasets] over the sources left, with the list
    prepared so far. *)
Fixpoint prepare_loop (data : list string) (prepared : list string)
    : res (list string) :=
  match data with
  | [] => Ok prepared
  | source :: rest =>
      if supports source then
        let? out := prepare source in
        prepare_loop rest (prepared ++ out)
      else prepare_loop rest (prepared ++ [source])
  end.

Definition prepare_datasets (data : list string) : res (list string) :=
  prepare_loop data [].

End PrepareDatasets.

(** A [prepare] for the worked examples: the converted file sits next to
    the source under a fixed name. *)
Definition sample_prepare (source : string) : res (list string) :=
  Ok [("converted_" ++ source)%string].

End Adapter.

(* ===================================================================== *)
(** ** chained_progress.py                                               *)
(* ===================================================================== *)

Module Chained.
Import Py Lifecycle.

(** One handler call run as a task on the event loop: the loop
    iteration at which the task finishes, and whether it returns or
    raises there. *)
Record task : Type := Task {
  finish : nat;
  outcome : res unit
}.

(** An observer: for each method call, the task its handler runs as. *)
Definition observer : Type := method_call -> task.

Record ChainedBenchmarkerProgress : Type := Chain {
  progresses : list observer
}.

Definition failure (t : task) : option exn :=
  match outcome t with
  | Ok _ => None
  | Raise e => Some e
  end.

(** The failure that comes first: the failing task that finishes
    earliest, the one earlier in the list when two finish in the same
    iteration. *)
Fixpoint first_failure (aws : list task) : option (nat * exn) :=
  match aws with
  | [] => None
  | t :: rest =>
      match failure t, first_failure rest with
      | Some e, Some (n', e') =>
          if (finish t <=? n')%nat then Some (finish t, e) else Some (n', e')
      | Some e, None => Some (finish t, e)
      | None, r => r
      end
  end.

Fixpoint last_finish (aws : list task) : nat :=
  match aws with
  | [] => 0%nat
  | t :: rest => Nat.max (finish t) (last_finish rest)
  end.

(** What the caller of [await] sees: the iteration at which it resumes,
    and the exception it resumes with, if any. *)
Record awaited : Type := Awaited {
  resumed_at : nat;
  raised : option exn
}.

(** [await asyncio.gather(...)] with [return_exceptions] left at its
    default, as the documentation of the library has it: the awaitables
    run concurrently as tasks; when all of them return, the caller
    resumes once the last has finished; the first exception raised is
    propagated to the caller at once, and the other tasks are not
    cancelled and run on. *)
Definition gather (aws : list task) : awaited :=
  match first_failure aws with
  | Some (n, e) => {| resumed_at := n; raised := Some e |}
  | None => {| resumed_at := last_finish aws; raised := None |}
  end.

(** The tasks [_gather] builds: one per observer, in the order of
    [self.progresses]. *)
Definition handler_tasks (self : ChainedBenchmarkerProgress)
    (call : method_call) : list task :=
  map (fun p => p call) (progresses self).

Definition _gather (self : ChainedBenchmarkerProgress) (call : method_call)
    : awaited :=
  gather (handler_tasks self call).

Definition on_initialize (self : ChainedBenchmarkerProgress) : awaited :=
  _gather self Call_on_initialize.

Definition on_benchmark_start (self : ChainedBenchmarkerProgress) : awaited :=
  _gather self Call_on_benchmark_start.

Definition on_benchmark_update (self : ChainedBenchmarkerProgress)
    (remaining_fraction : option Q) : awaited :=
  _gather self (Call_on_benchmark_update remaining_fraction).

Definition on_benchmark_complete (self : ChainedBenchmarkerProgress) : awaited :=
  _gather self Call_on_benchmark_complete.

Definition on_finalize (self : ChainedBenchmarkerProgress) : awaited :=
  _gather self Call_on_finalize.





End Chained.

(* ===================================================================== *)
(** ** Properties of [add_streaming_line]                                *)
(* ===================================================================== *)

Module HandlerSpec.
Import Py Eff Handler.

Section Properties.
Local Open Scope eff_scope.

Variable extract_line_data : string -> res value.
Variable extract_choices_and_usage : value -> res (value * value).

Notation run := (add_streaming_line extract_line_data extract_choices_and_usage).
Notation feed_all := (feed extract_line_data extract_choices_and_usage).
Notation carried := (carried_id extract_line_data).
Notation after_id := (Handler.after_id extract_choices_and_usage).

(** *** Computations that leave the response identifier alone *)

Lemma keeps_id_ret {A} (a : A) : keeps_id (ret a).
Proof. intros s; reflexivity. Qed.

Lemma keeps_id_lift {A} (r : res A) : keeps_id (lift r).
Proof. intros s; reflexivity. Qed.

Lemma keeps_id_bind {A B} (c : M handler A) (k : A -> M handler B) :
  keeps_id c -> (forall a, keeps_id (k a)) -> keeps_id (bind c k).
Proof.
  intros Hc Hk s. unfold bind. specialize (Hc s).
  destruct (c s) as [s' [a|e]]; simpl in *; [|exact Hc].
  rewrite Hk. exact Hc.
Qed.

Lemma keeps_id_append v : keeps_id (modify (append_streaming_texts v)).
Proof. intros s; reflexivity. Qed.

Lemma keeps_id_usage v : keeps_id (modify (set_streaming_usage v)).
Proof. intros s; reflexivity. Qed.

Lemma keeps_id_when b (c : M handler unit) : keeps_id c -> keeps_id (when b c).
Proof. destruct b; simpl; [trivial | intros _; apply keeps_id_ret]. Qed.

Lemma keeps_id_detect_token choice : keeps_id (detect_token choice).
Proof.
  unfold detect_token.
  repeat (apply keeps_id_bind; [apply keeps_id_lift | intros ?]).
  destruct (_ || _).
  - apply keeps_id_bind; [apply keeps_id_append | intros; apply keeps_id_ret].
  - apply keeps_id_ret.
Qed.

Lemma keeps_id_after_id data : keeps_id (after_id data).
Proof.
  unfold after_id.
  apply keeps_id_bind; [apply keeps_id_lift | intros cu].
  apply keeps_id_bind; [apply keeps_id_lift | intros choice].
  apply keeps_id_bind.
  - destruct (truthy (fst cu)); [apply keeps_id_detect_token | apply keeps_id_ret].
  - intros updated. apply keeps_id_bind.
    + apply keeps_id_when, keeps_id_usage.
    + intros; apply keeps_id_ret.
Qed.

Lemma add_streaming_line_unfold line :
  run line =
  (let! data := lift (extract_line_data line) in
   if negb (truthy data) then
     ret (if is_none data then None else Some 0)
   else
     let! has_id := lift (contains "id" data) in
     let! self := read in
     do! (if has_id && is_none (streaming_response_id self) then
            let! v := lift (getitem data "id") in
            modify (set_streaming_response_id v)
          else ret tt) in
     after_id data).
Proof. reflexivity. Qed.

(** For a decoded object that is not empty, the call is the identifier
    step followed by [after_id]. *)
Lemma add_streaming_line_dict line d st :
  extract_line_data line = Ok (PDict d) -> d <> ∅ ->
  run line st =
  after_id (PDict d)
    (match d !! "id" with
     | Some v => if is_none (streaming_response_id st)
                 then set_streaming_response_id v st else st
     | None => st
     end).
Proof.
  intros Hd Hne. rewrite add_streaming_line_unfold.
  unfold bind at 1, lift at 1. rewrite Hd. unfold truthy.
  rewrite bool_decide_false by exact Hne. simpl negb. cbv iota.
  unfold bind, lift, read, contains, getitem, modify, ret.
  destruct (d !! "id") as [v|] eqn:Hid.
  - rewrite bool_decide_true by eauto. cbn beta iota delta [negb andb].
    destruct (is_none (streaming_response_id st)); reflexivity.
  - rewrite bool_decide_false by (intros [? ?]; discriminate). reflexivity.
Qed.

Lemma add_streaming_line_id line st :
  streaming_response_id (fst (run line st)) =
  if is_none (streaming_response_id st) then carried line
  else streaming_response_id st.
Proof.
  unfold carried_id.
  destruct (extract_line_data line) as [data|e] eqn:Hd.
  2:{ rewrite add_streaming_line_unfold. unfold bind, lift. rewrite Hd.
      simpl. destruct (is_none _) eqn:E; [|reflexivity].
      destruct (streaming_response_id st); try discriminate; reflexivity. }
  assert (Hnone : is_none (streaming_response_id st) = true ->
                  streaming_response_id st = PNone).
  { destruct (streaming_response_id st); try discriminate; reflexivity. }
  destruct data as [ | b | z | q | s | l | d ].
  7:{ destruct (decide (d = ∅)) as [->|Hne].
      - rewrite add_streaming_line_unfold. unfold bind, lift. rewrite Hd.
        simpl. rewrite lookup_empty. simpl.
        destruct (is_none _) eqn:E; [auto|reflexivity].
      - rewrite (add_streaming_line_dict line d st Hd Hne).
        rewrite keeps_id_after_id.
        destruct (d !! "id") as [v|]; simpl;
          destruct (is_none _) eqn:E; auto. }
  all: rewrite add_streaming_line_unfold; unfold bind at 1, lift at 1;
    rewrite Hd; simpl truthy.
  all: destruct (truthy _); cbn beta iota delta [negb];
    [ | cbn; destruct (is_none _); auto ].
  all: unfold bind at 1, lift at 1, contains.
  all: try solve [cbn; destruct (is_none _) eqn:E; auto].
  all: match goal with |- context [?b && _] => destruct b end.
  all: unfold bind at 1, read; unfold bind at 1.
  all: destruct (is_none (streaming_response_id st)) eqn:E;
    cbn beta iota delta [andb].
  all: try (cbn; auto; fail).
  all: unfold ret; cbn beta iota; rewrite keeps_id_after_id; auto.
Qed.

Lemma feed_cons line lines st :
  feed_all (line :: lines) st = feed_all lines (fst (run line st)).
Proof. reflexivity. Qed.

Lemma feed_app xs ys st : feed_all (xs ++ ys) st = feed_all ys (feed_all xs st).
Proof. unfold feed. apply fold_left_app. Qed.

(** The identifier after any run of calls: the first one that is not
    [None] among the stored one and those the lines carry, in order. *)
Lemma feed_response_id lines : forall st,
  streaming_response_id (feed_all lines st) =
  first_not_none (streaming_response_id st :: map carried lines).
Proof.
  induction lines as [|line lines IH]; intros st.
  - simpl. destruct (streaming_response_id st); reflexivity.
  - rewrite feed_cons, IH, add_streaming_line_id. simpl.
    destruct (is_none (streaming_response_id st)) eqn:E; [reflexivity|].
    rewrite E. reflexivity.
Qed.

Lemma first_not_none_skip (vs ws : list value) :
  Forall (fun v => v = PNone) vs -> first_not_none (vs ++ ws) = first_not_none ws.
Proof. induction 1 as [|v vs -> _ IH]; simpl; auto. Qed.

Lemma first_not_none_hit v (ws : list value) :
  v <> PNone -> first_not_none (v :: ws) = v.
Proof. intros Hv. simpl. destruct v; try reflexivity. contradiction. Qed.

(** *** The part of the call after the identifier step *)


Lemma after_id_first_choice d cd rest usage dd s :
  extract_choices_and_usage (PDict d) = Ok (PList (PDict cd :: rest), usage) ->
  default (PDict ∅) (cd !! "delta") = PDict dd ->
  let content := default PNone (dd !! "content") in
  let reasoning := default PNone (dd !! "reasoning_content") in
  let s1 := if token_detected content reasoning
            then append_streaming_texts (fragment content reasoning) s else s in
  let s2 := if truthy usage then set_streaming_usage usage s1 else s1 in
  after_id (PDict d) s =
  (s2, Ok (Some (if token_detected content reasoning then 1 else 0)%Z)).
Proof.
  intros Hcu Hdelta. cbv zeta.
  unfold after_id, bind at 1, lift at 1. rewrite Hcu. cbn [fst snd truthy getitem0].
  unfold bind at 1, lift at 1.
  unfold bind at 1, detect_token, bind at 1, lift at 1, get at 1.
  rewrite Hdelta. unfold bind at 1, lift at 1, get at 1.
  unfold bind at 1, lift at 1, get at 1.
  fold (token_detected (default PNone (dd !! "content"))
                       (default PNone (dd !! "reasoning_content"))).
  fold (fragment (default PNone (dd !! "content"))
                 (default PNone (dd !! "reasoning_content"))).
  destruct (token_detected _ _); destruct (truthy usage); reflexivity.
Qed.

Lemma after_id_no_choices data choices usage s :
  extract_choices_and_usage data = Ok (choices, usage) ->
  truthy choices = false ->
  after_id data s =
  (if truthy usage then set_streaming_usage usage s else s, Ok (Some 0%Z)).
Proof.
  intros Hcu Hch. unfold after_id, bind at 1, lift at 1. rewrite Hcu.
  cbn [fst snd]. rewrite Hch.
  destruct (truthy usage); reflexivity.
Qed.

Lemma texts_after_id_step (d : gmap string value) st :
  streaming_texts
    (match d !! "id" with
     | Some v => if is_none (streaming_response_id st)
                 then set_streaming_response_id v st else st
     | None => st
     end) = streaming_texts st.
Proof. destruct (d !! "id"); [destruct (is_none _)|]; reflexivity. Qed.

Lemma token_detected_true content reasoning :
  token_detected content reasoning = true <->
  content <> PNone \/ reasoning <> PNone.
Proof.
  unfold token_detected. rewrite orb_true_iff.
  destruct content, reasoning; simpl; split; intros H;
    try (left; discriminate); try (right; discriminate);
    try (left; reflexivity); try (right; reflexivity);
    destruct H as [H|H]; try discriminate; contradiction.
Qed.

Lemma token_detected_false content reasoning :
  token_detected content reasoning = false <->
  content = PNone /\ reasoning = PNone.
Proof.
  unfold token_detected. rewrite orb_false_iff.
  destruct content, reasoning; simpl; split; intros [H1 H2];
    try discriminate; split; reflexivity.
Qed.

(** The whole call on a decoded, non-empty object whose first choice is
    an object with an object [delta] (or none). *)
Lemma add_streaming_line_first_choice line st d cd rest usage dd :
  extract_line_data line = Ok (PDict d) -> d <> ∅ ->
  extract_choices_and_usage (PDict d) = Ok (PList (PDict cd :: rest), usage) ->
  default (PDict ∅) (cd !! "delta") = PDict dd ->
  let content := default PNone (dd !! "content") in
  let reasoning := default PNone (dd !! "reasoning_content") in
  snd (run line st) =
    Ok (Some (if token_detected content reasoning then 1 else 0)%Z) /\
  streaming_texts (fst (run line st)) =
    (if token_detected content reasoning
     then streaming_texts st ++ [fragment content reasoning]
     else streaming_texts st).
Proof.
  intros Hd Hne Hcu Hdelta. cbv zeta.
  rewrite (add_streaming_line_dict line d st Hd Hne).
  rewrite (after_id_first_choice d cd rest usage dd _ Hcu Hdelta).
  cbn [fst snd]. split; [reflexivity|].
  destruct (token_detected _ _); destruct (truthy usage); cbn;
    rewrite texts_after_id_step; reflexivity.
Qed.

(** C1 (as amended): on a valid payload line with at least one choice,
    whose first choice is an object with an object delta,
    [add_streaming_line] returns 1 exactly when [content] or
    [reasoning_content] of the delta is present with a value other than
    [None] (the empty string counts, a null does not), and 0 exactly when
    neither is; a delta with [content] the empty string and no
    [reasoning_content] gives 1 and appends the empty string. *)
Theorem token_signal_iff_field_not_none line st d cd rest usage dd :
  extract_line_data line = Ok (PDict d) -> d <> ∅ ->
  extract_choices_and_usage (PDict d) = Ok (PList (PDict cd :: rest), usage) ->
  default (PDict ∅) (cd !! "delta") = PDict dd ->
  let content := default PNone (dd !! "content") in
  let reasoning := default PNone (dd !! "reasoning_content") in
  (snd (run line st) = Ok (Some 1%Z) <->
     content <> PNone \/ reasoning <> PNone) /\
  (snd (run line st) = Ok (Some 0%Z) <->
     content = PNone /\ reasoning = PNone) /\
  (dd !! "content" = Some (PStr empty_str) ->
   dd !! "reasoning_content" = None ->
   snd (run line st) = Ok (Some 1%Z) /\
   streaming_texts (fst (run line st)) =
     streaming_texts st ++ [PStr empty_str]).
Proof.
  intros Hd Hne Hcu Hdelta content reasoning.
  destruct (add_streaming_line_first_choice line st d cd rest usage dd
              Hd Hne Hcu Hdelta) as [Hsig Htxt].
  fold content reasoning in Hsig, Htxt.
  rewrite Hsig, Htxt.
  rewrite <- token_detected_true, <- token_detected_false.
  split; [|split].
  - destruct (token_detected content reasoning); split; congruence.
  - destruct (token_detected content reasoning); split; congruence.
  - intros Hc Hr. subst content reasoning. rewrite Hc, Hr. cbn. auto.
Qed.

(** C5 (as amended): when a token is detected, the fragment appended to
    the accumulated texts is the [content] value when that is truthy
    (present, not [None], not empty), else the [reasoning_content] value
    when that is truthy, else the empty string; so a non-empty string in
    [content] wins over whatever [reasoning_content] holds. *)
Theorem appended_fragment_first_truthy line st d cd rest usage dd :
  extract_line_data line = Ok (PDict d) -> d <> ∅ ->
  extract_choices_and_usage (PDict d) = Ok (PList (PDict cd :: rest), usage) ->
  default (PDict ∅) (cd !! "delta") = PDict dd ->
  let content := default PNone (dd !! "content") in
  let reasoning := default PNone (dd !! "reasoning_content") in
  content <> PNone \/ reasoning <> PNone ->
  streaming_texts (fst (run line st)) =
    streaming_texts st ++
      [if truthy content then content
       else if truthy reasoning then reasoning
       else PStr empty_str] /\
  (forall a, content = PStr a -> a <> empty_str ->
     streaming_texts (fst (run line st)) = streaming_texts st ++ [PStr a]).
Proof.
  intros Hd Hne Hcu Hdelta content reasoning Htok.
  destruct (add_streaming_line_first_choice line st d cd rest usage dd
              Hd Hne Hcu Hdelta) as [_ Htxt].
  fold content reasoning in Htxt.
  apply token_detected_true in Htok. rewrite Htok in Htxt.
  assert (Hfrag : fragment content reasoning =
                  if truthy content then content
                  else if truthy reasoning then reasoning
                  else PStr empty_str).
  { unfold fragment, or_. destruct (truthy content) eqn:Ec.
    - rewrite Ec. reflexivity.
    - reflexivity. }
  rewrite Htxt, Hfrag. split; [reflexivity|].
  intros a Ha Hnonempty. rewrite Ha. cbn [truthy].
  destruct (String.eqb a empty_str) eqn:E; [|reflexivity].
  apply String.eqb_eq in E. contradiction.
Qed.

(** C7: the stored response identifier is first-write-wins.  Starting
    with none stored, after lines that carry no identifier the first line
    that carries one sets it, and whatever lines follow -- whatever they
    carry, return or raise -- it stays that value. *)
Theorem response_id_first_write_wins
    (before : list string) (line : string) (later : list string)
    (st : handler) (v : value) :
  streaming_response_id st = PNone ->
  Forall (fun l => carried l = PNone) before ->
  carried line = v -> v <> PNone ->
  streaming_response_id (feed_all before st) = PNone /\
  streaming_response_id (feed_all (before ++ [line]) st) = v /\
  streaming_response_id (feed_all (before ++ line :: later) st) = v.
Proof.
  intros Hst Hbefore Hline Hv.
  assert (Hmap : Forall (fun x => x = PNone) (map carried before)).
  { apply Forall_map. exact Hbefore. }
  rewrite !feed_response_id, Hst. cbn [first_not_none is_none].
  rewrite !map_app. cbn [map]. rewrite Hline.
  rewrite !first_not_none_skip by exact Hmap.
  rewrite !first_not_none_hit by exact Hv.
  split; [|auto].
  rewrite <- (app_nil_r (map carried before)).
  rewrite first_not_none_skip by exact Hmap. reflexivity.
Qed.

Lemma usage_after_id_step (d : gmap string value) st :
  streaming_usage
    (match d !! "id" with
     | Some v => if is_none (streaming_response_id st)
                 then set_streaming_response_id v st else st
     | None => st
     end) = streaming_usage st.
Proof. destruct (d !! "id"); [destruct (is_none _)|]; reflexivity. Qed.

(** C8 (as amended): on a valid payload line with no choices, or whose
    first choice is an object with an object delta (or none), the call
    returns 0 or 1 and the stored usage snapshot becomes the usage record
    of the line when that record is not empty -- token or no token --
    and stays as it was when the record is empty or null; with no
    choices the call returns 0 and a non-empty record is still stored. *)
Theorem usage_snapshot_overwritten line st d choices usage :
  extract_line_data line = Ok (PDict d) -> d <> ∅ ->
  extract_choices_and_usage (PDict d) = Ok (choices, usage) ->
  well_formed_choices choices = true ->
  (snd (run line st) = Ok (Some 0%Z) \/ snd (run line st) = Ok (Some 1%Z)) /\
  (truthy usage = true -> streaming_usage (fst (run line st)) = usage) /\
  (truthy usage = false ->
     streaming_usage (fst (run line st)) = streaming_usage st) /\
  (truthy choices = false -> snd (run line st) = Ok (Some 0%Z)).
Proof.
  intros Hd Hne Hcu Hwf.
  rewrite (add_streaming_line_dict line d st Hd Hne).
  pose proof (usage_after_id_step d st) as Hkeep.
  set (s1 := match d !! "id" with Some _ => _ | None => _ end) in *.
  destruct (truthy choices) eqn:Hch.
  - unfold well_formed_choices in Hwf. rewrite Hch in Hwf. cbn in Hwf.
    destruct choices as [ | | | | | [|[ | | | | | | cd] rest] | ]; try discriminate.
    assert (exists dd, default (PDict ∅) (cd !! "delta") = PDict dd) as [dd Hdd].
    { destruct (cd !! "delta") as [[ | | | | | | dd]|]; try discriminate; cbn; eauto. }
    rewrite (after_id_first_choice d cd rest usage dd s1 Hcu Hdd).
    cbn [fst snd].
    split; [destruct (token_detected _ _); auto|].
    split; [|split; [|discriminate]].
    + intros Hus. rewrite Hus. reflexivity.
    + intros Hus. rewrite Hus. destruct (token_detected _ _); exact Hkeep.
  - rewrite (after_id_no_choices (PDict d) choices usage s1 Hcu Hch).
    cbn [fst snd]. split; [auto|].
    split; [|split; [|reflexivity]].
    + intros Hus. rewrite Hus. reflexivity.
    + intros Hus. rewrite Hus. exact Hkeep.
Qed.

End Properties.

(** *** Worked examples *)

Notation sample_run :=
  (add_streaming_line sample_extract_line_data field_extract_choices_and_usage).
Notation sample_feed :=
  (feed sample_extract_line_data field_extract_choices_and_usage).

Lemma singleton_not_empty (k : string) (v : value) :
  ({[ k := v ]} : gmap string value) <> ∅.
Proof. apply insert_non_empty. Qed.

Lemma token_signal_iff_field_not_none_witness :
  snd (sample_run "first" fresh) = Ok (Some 1%Z) /\
  streaming_texts (fst (sample_run "first" fresh)) =
    streaming_texts fresh ++ [PStr empty_str].
Proof.
  pose (dd := ({[ "content" := PStr empty_str ]} : gmap string value)).
  pose (cd := ({[ "delta" := PDict dd ]} : gmap string value)).
  pose (d := ({[ "choices" := PList [PDict cd] ]} : gmap string value)).
  apply (token_signal_iff_field_not_none
           sample_extract_line_data field_extract_choices_and_usage
           "first" fresh d cd [] (PDict ∅) dd).
  - vm_compute; reflexivity.
  - apply singleton_not_empty.
  - vm_compute; reflexivity.
  - vm_compute; reflexivity.
  - vm_compute; reflexivity.
  - vm_compute; reflexivity.
Defined.

(** C1 as stated fails: the key [content] is present in the delta, its
    value is null, and the call returns 0. *)
Lemma present_null_content_is_no_token :
  sample_extract_line_data "null" = Ok (chunk {[ "content" := PNone ]}) /\
  is_Some (({[ "content" := PNone ]} : gmap string value) !! "content") /\
  snd (sample_run "null" fresh) = Ok (Some 0%Z) /\
  snd (sample_run "null" fresh) <> Ok (Some 1%Z).
Proof.
  split; [vm_compute; reflexivity|].
  split; [rewrite lookup_singleton_eq; eauto|].
  split; [vm_compute; reflexivity | vm_compute; discriminate].
Qed.

Lemma appended_fragment_first_truthy_witness :
  streaming_texts (fst (sample_run "both" fresh)) = [PStr "A"].
Proof.
  pose (dd := ({[ "content" := PStr "A";
                  "reasoning_content" := PStr "B" ]} : gmap string value)).
  pose (cd := ({[ "delta" := PDict dd ]} : gmap string value)).
  pose (d := ({[ "choices" := PList [PDict cd] ]} : gmap string value)).
  destruct (appended_fragment_first_truthy
              sample_extract_line_data field_extract_choices_and_usage
              "both" fresh d cd [] (PDict ∅) dd) as [_ H].
  - vm_compute; reflexivity.
  - apply singleton_not_empty.
  - vm_compute; reflexivity.
  - vm_compute; reflexivity.
  - left. vm_compute. discriminate.
  - apply (H "A"); [vm_compute; reflexivity | vm_compute; discriminate].
Defined.

(** C5 as stated fails: [content] is present and not null (the empty
    string), [reasoning_content] is "B", and the fragment appended is
    "B", not the [content] value. *)
Lemma empty_content_yields_reasoning_fragment :
  sample_extract_line_data "think" =
    Ok (chunk {[ "content" := PStr empty_str;
                 "reasoning_content" := PStr "B" ]}) /\
  PStr empty_str <> PNone /\
  streaming_texts (fst (sample_run "think" fresh)) = [PStr "B"] /\
  streaming_texts (fst (sample_run "think" fresh)) <> [PStr empty_str].
Proof.
  split; [vm_compute; reflexivity|].
  split; [discriminate|].
  split; [vm_compute; reflexivity | vm_compute; discriminate].
Qed.

Lemma response_id_first_write_wins_witness :
  streaming_response_id (sample_feed ["role"; "first"] fresh) = PNone /\
  streaming_response_id (sample_feed (["role"; "first"] ++ ["id1"]) fresh)
    = PStr "chatcmpl-1" /\
  streaming_response_id
    (sample_feed (["role"; "first"] ++ "id1" :: ["id2"; "both"; done_marker])
       fresh) = PStr "chatcmpl-1".
Proof.
  apply (response_id_first_write_wins
           sample_extract_line_data field_extract_choices_and_usage).
  - reflexivity.
  - repeat constructor.
  - vm_compute; reflexivity.
  - discriminate.
Defined.

Lemma usage_snapshot_overwritten_witness :
  (snd (sample_run "usage" fresh) = Ok (Some 0%Z) \/
   snd (sample_run "usage" fresh) = Ok (Some 1%Z)) /\
  (truthy (PDict {[ "total_tokens" := PInt 3 ]}) = true ->
   streaming_usage (fst (sample_run "usage" fresh)) =
     PDict {[ "total_tokens" := PInt 3 ]}) /\
  (truthy (PDict {[ "total_tokens" := PInt 3 ]}) = false ->
   streaming_usage (fst (sample_run "usage" fresh)) = streaming_usage fresh) /\
  (truthy (PList []) = false -> snd (sample_run "usage" fresh) = Ok (Some 0%Z)).
Proof.
  apply (usage_snapshot_overwritten
           sample_extract_line_data field_extract_choices_and_usage
           "usage" fresh
           {[ "usage" := PDict {[ "total_tokens" := PInt 3 ]} ]}).
  - vm_compute; reflexivity.
  - apply singleton_not_empty.
  - vm_compute; reflexivity.
  - reflexivity.
Defined.

Notation usage_run :=
  (add_streaming_line usage_extract_line_data field_extract_choices_and_usage).

(** C8 as stated fails.  After a line that stored a usage record, a
    valid payload line whose usage record is the empty object returns 0
    and the stored snapshot is still the old record; and a line that
    carries a filled usage record next to a choice whose delta is null
    raises before the usage step, so that record is not stored. *)
Lemma usage_record_not_always_stored :
  let st := fst (usage_run "usage3" fresh) in
  streaming_usage st = PDict {[ "total_tokens" := PInt 3 ]} /\
  usage_extract_line_data "usage_empty" = Ok (PDict {[ "usage" := PDict ∅ ]}) /\
  snd (usage_run "usage_empty" st) = Ok (Some 0%Z) /\
  streaming_usage (fst (usage_run "usage_empty" st))
    = PDict {[ "total_tokens" := PInt 3 ]} /\
  streaming_usage (fst (usage_run "usage_empty" st)) <> PDict ∅ /\
  (exists e, snd (usage_run "usage_null_delta" fresh) = Raise e) /\
  streaming_usage (fst (usage_run "usage_null_delta" fresh)) = PNone /\
  streaming_usage (fst (usage_run "usage_null_delta" fresh))
    <> PDict {[ "total_tokens" := PInt 7 ]}.
Proof.
  cbv zeta. split_and!; try (vm_compute; reflexivity).
  - vm_compute. discriminate.
  - eexists. vm_compute. reflexivity.
  - vm_compute. discriminate.
Qed.

End HandlerSpec.

(* ===================================================================== *)
(** ** Properties of the remote progress sink                            *)
(* ===================================================================== *)

Module ProgressSpec.
Import Py Eff Progress.
Local Open Scope Q_scope.

Lemma should_update_true now me p :
  should_update now me p = true <->
  1 <= now - _last_update_ts me \/
  2 <= p - _last_progress me \/
  100 <= p.
Proof.
  unfold should_update. rewrite !orb_true_iff, !Qle_bool_iff. tauto.
Qed.

Lemma should_update_false now me p :
  should_update now me p = false <->
  ~ (1 <= now - _last_update_ts me \/
     2 <= p - _last_progress me \/
     100 <= p).
Proof.
  rewrite <- should_update_true.
  destruct (should_update now me p); split; intros H;
    try reflexivity; try discriminate; exfalso; apply H; reflexivity.
Qed.

(** A push that the throttle lets through, over an open session: one
    request goes out, and what follows depends on the reply alone. *)
Lemma _update_progress_attempt now net p w sess :
  session (self w) = Some sess -> closed sess = false ->
  should_update now (self w) p = true ->
  _update_progress now net p w =
  match net (Patch (progress_url (self w)) p) with
  | Status code =>
      if (400 <=? code)%Z
      then (send (Patch (progress_url (self w)) p) w,
            Raise (Exn RuntimeError
                     "Failed to update progress to server: bad status"))
      else (set_last_update_ts now
              (set_last_progress p (send (Patch (progress_url (self w)) p) w)),
            Ok tt)
  | Failure e =>
      (send (Patch (progress_url (self w)) p) w,
       Raise (Exn RuntimeError
                ("Failed to update progress to server: " ++ exn_str e)))
  end.
Proof.
  intros Hs Hopen Hup.
  unfold _update_progress, bind at 1, read. rewrite Hs, Hup. cbn [negb].
  unfold try_except, session_patch. rewrite Hopen.
  unfold bind, modify, lift, raise, ret, raise_for_status.
  destruct (net _) as [code|e]; [|reflexivity].
  destruct (400 <=? code)%Z; reflexivity.
Qed.

Lemma _update_progress_dropped now net p w sess :
  session (self w) = Some sess ->
  should_update now (self w) p = false ->
  _update_progress now net p w = (w, Ok tt).
Proof.
  intros Hs Hup. unfold _update_progress, bind at 1, read.
  rewrite Hs, Hup. reflexivity.
Qed.

Lemma _update_progress_unopened now net p w :
  session (self w) = None ->
  _update_progress now net p w = (w, Ok tt).
Proof.
  intros Hs. unfold _update_progress, bind at 1, read. rewrite Hs. reflexivity.
Qed.

Lemma wire_attempt now net p w sess :
  session (self w) = Some sess -> closed sess = false ->
  should_update now (self w) p = true ->
  wire (fst (_update_progress now net p w)) =
  wire w ++ [Patch (progress_url (self w)) p].
Proof.
  intros Hs Hopen Hup. rewrite (_update_progress_attempt _ _ _ _ _ Hs Hopen Hup).
  destruct (net _) as [code|e]; [destruct (400 <=? code)%Z|]; reflexivity.
Qed.

Lemma app_singleton_neq {A} (l : list A) (x : A) : l <> l ++ [x].
Proof.
  intros E. apply (f_equal (@length A)) in E.
  rewrite length_app in E. simpl in E. lia.
Qed.

(** C3 (as amended): over an open session a push is sent exactly when a
    second or more has passed since the last push that went through, or
    the new value is at least two points above the last value sent, or
    the new value is at least 100; otherwise the call returns without
    sending and the sink is as before. *)
Theorem push_sent_iff_throttle_rule now net p w sess :
  session (self w) = Some sess -> closed sess = false ->
  let rule := 1 <= now - _last_update_ts (self w) \/
              2 <= p - _last_progress (self w) \/
              100 <= p in
  (wire (fst (_update_progress now net p w)) =
     wire w ++ [Patch (progress_url (self w)) p] <-> rule) /\
  (_update_progress now net p w = (w, Ok tt) <-> ~ rule).
Proof.
  intros Hs Hopen rule. subst rule.
  rewrite <- should_update_false, <- should_update_true.
  destruct (should_update now (self w) p) eqn:Hup.
  - pose proof (wire_attempt now net p w sess Hs Hopen Hup) as Hw.
    split; split; intros H; try reflexivity; try discriminate; [exact Hw|].
    rewrite H in Hw. cbn in Hw. exfalso. exact (app_singleton_neq _ _ Hw).
  - pose proof (_update_progress_dropped now net p w sess Hs Hup) as Hd.
    split; split; intros H; try reflexivity; try discriminate; [|exact Hd].
    rewrite Hd in H. cbn in H. exfalso. exact (app_singleton_neq _ _ H).
Qed.

(** C4: a push attempted over an open session puts one request on the
    wire; when the reply is a status below 400 the last-sent value and
    timestamp become the pushed value and the time of the call; on a
    status from 400 on, or a transport failure, the sink keeps both as
    they were and the call raises one [RuntimeError]. *)
Theorem push_outcome_updates_state now net p w sess :
  session (self w) = Some sess -> closed sess = false ->
  should_update now (self w) p = true ->
  let r := _update_progress now net p w in
  let req := Patch (progress_url (self w)) p in
  wire (fst r) = wire w ++ [req] /\
  match net req with
  | Status code =>
      if (code <? 400)%Z then
        snd r = Ok tt /\
        _last_progress (self (fst r)) = p /\
        _last_update_ts (self (fst r)) = now /\
        session (self (fst r)) = session (self w)
      else
        self (fst r) = self w /\
        snd r = Raise (Exn RuntimeError
                  "Failed to update progress to server: bad status")
  | Failure e =>
      self (fst r) = self w /\
      snd r = Raise (Exn RuntimeError
                ("Failed to update progress to server: " ++ exn_str e))
  end.
Proof.
  intros Hs Hopen Hup r req. subst r req.
  split; [exact (wire_attempt now net p w sess Hs Hopen Hup)|].
  rewrite (_update_progress_attempt _ _ _ _ _ Hs Hopen Hup).
  destruct (net _) as [code|e]; [|split; reflexivity].
  rewrite Z.ltb_antisym. destruct (400 <=? code)%Z; cbn; auto.
Qed.

(** C6: over an open session [on_benchmark_complete] always puts the
    push of 100 on the wire, whatever the time of the call, the last
    timestamp and the last value are. *)
Theorem completion_push_always_sent now net w sess :
  session (self w) = Some sess -> closed sess = false ->
  wire (fst (on_benchmark_complete now net w)) =
  wire w ++ [Patch (progress_url (self w)) 100].
Proof.
  intros Hs Hopen. unfold on_benchmark_complete.
  apply (wire_attempt now net 100 w sess Hs Hopen).
  apply should_update_true. right; right. apply Qle_refl.
Qed.

(** C9: in a sink that was just built and then initialised, the stored
    progress value is below every valid progress, the stored timestamp
    is 0, and the first push is sent for every progress value between 0
    and 100 (the clock reads seconds since the epoch, so it is past 1). *)
Theorem first_push_always_sent url auth now net p :
  1 <= now -> 0 <= p -> p <= 100 ->
  let w0 := fst (on_initialize (World (__init__ url auth) [])) in
  _last_progress (self w0) < p /\
  _last_update_ts (self w0) == 0 /\
  (exists sess, session (self w0) = Some sess /\ closed sess = false) /\
  wire (fst (_update_progress now net p w0)) = [Patch url p].
Proof.
  intros Hnow Hp0 Hp100 w0.
  assert (Hs : exists sess, session (self w0) = Some sess /\ closed sess = false).
  { subst w0. cbn. eauto. }
  split; [subst w0; cbn; lra|].
  split; [subst w0; cbn; reflexivity|].
  split; [exact Hs|].
  destruct Hs as (sess & Hs & Hopen).
  rewrite (wire_attempt now net p w0 sess Hs Hopen); [reflexivity|].
  apply should_update_true. left. subst w0. cbn. lra.
Qed.

(** C10: while the session was never opened, the handlers of
    BenchmarkStart, BenchmarkUpdate and BenchmarkComplete return without
    sending, without raising, and leave the sink as it was. *)
Theorem push_without_session_is_noop now net w remaining_fraction :
  session (self w) = None ->
  on_benchmark_start now net w = (w, Ok tt) /\
  on_benchmark_update now net remaining_fraction w = (w, Ok tt) /\
  on_benchmark_complete now net w = (w, Ok tt).
Proof.
  intros Hs.
  unfold on_benchmark_start, on_benchmark_update, on_benchmark_complete.
  rewrite !_update_progress_unopened by exact Hs. auto.
Qed.

(** *** Worked examples *)

(** The three cases of the design document: last push of 10 at time 0;
    11 at 0.5 is dropped, 13 at 0.5 and 10.5 at 1.1 are sent. *)
Lemma push_sent_iff_throttle_rule_witness :
  _update_progress 0.5 always_ok 11 (pushed "u" 0 10)
    = (pushed "u" 0 10, Ok tt) /\
  wire (fst (_update_progress 0.5 always_ok 13 (pushed "u" 0 10)))
    = [Patch "u" 13] /\
  wire (fst (_update_progress 1.1 always_ok 10.5 (pushed "u" 0 10)))
    = [Patch "u" 10.5].
Proof.
  split; [|split].
  - apply (proj2 (push_sent_iff_throttle_rule 0.5 always_ok 11
                    (pushed "u" 0 10) open_session eq_refl eq_refl)).
    cbn. lra.
  - apply (proj1 (push_sent_iff_throttle_rule 0.5 always_ok 13
                    (pushed "u" 0 10) open_session eq_refl eq_refl)).
    cbn. lra.
  - apply (proj1 (push_sent_iff_throttle_rule 1.1 always_ok 10.5
                    (pushed "u" 0 10) open_session eq_refl eq_refl)).
    cbn. lra.
Defined.

(** C3 as stated fails: last push of 10 at time 0, then 5 at time 0.5.
    The value differs from the last one by 5 points, so the stated rule
    asks for a push; the call sends nothing. *)
Lemma lower_value_is_dropped :
  stated_rule 0.5 0 5 10 /\
  _update_progress 0.5 always_ok 5 (pushed "u" 0 10)
    = (pushed "u" 0 10, Ok tt) /\
  wire (fst (_update_progress 0.5 always_ok 5 (pushed "u" 0 10))) = [].
Proof.
  split; [|split; reflexivity].
  unfold stated_rule. right; left. vm_compute. discriminate.
Qed.

Lemma push_outcome_updates_state_witness :
  (wire (fst (_update_progress 0.5 always_ok 13 (pushed "u" 0 10)))
     = [Patch "u" 13] /\
   snd (_update_progress 0.5 always_ok 13 (pushed "u" 0 10)) = Ok tt /\
   _last_progress (self (fst (_update_progress 0.5 always_ok 13
                                (pushed "u" 0 10)))) = 13 /\
   _last_update_ts (self (fst (_update_progress 0.5 always_ok 13
                                 (pushed "u" 0 10)))) = 0.5 /\
   session (self (fst (_update_progress 0.5 always_ok 13 (pushed "u" 0 10))))
     = Some open_session) /\
  (wire (fst (_update_progress 0.5 always_503 13 (pushed "u" 0 10)))
     = [Patch "u" 13] /\
   self (fst (_update_progress 0.5 always_503 13 (pushed "u" 0 10)))
     = self (pushed "u" 0 10) /\
   snd (_update_progress 0.5 always_503 13 (pushed "u" 0 10))
     = Raise (Exn RuntimeError
                "Failed to update progress to server: bad status")) /\
  (wire (fst (_update_progress 0.5 unreachable 13 (pushed "u" 0 10)))
     = [Patch "u" 13] /\
   self (fst (_update_progress 0.5 unreachable 13 (pushed "u" 0 10)))
     = self (pushed "u" 0 10) /\
   snd (_update_progress 0.5 unreachable 13 (pushed "u" 0 10))
     = Raise (Exn RuntimeError
                "Failed to update progress to server: Cannot connect to host")).
Proof.
  split; [|split].
  - exact (push_outcome_updates_state 0.5 always_ok 13 (pushed "u" 0 10)
             open_session eq_refl eq_refl eq_refl).
  - exact (push_outcome_updates_state 0.5 always_503 13 (pushed "u" 0 10)
             open_session eq_refl eq_refl eq_refl).
  - exact (push_outcome_updates_state 0.5 unreachable 13 (pushed "u" 0 10)
             open_session eq_refl eq_refl eq_refl).
Defined.

(** A completion right after a push of 100: no second has passed and the
    value has not moved, and the push still goes out. *)
Lemma completion_push_always_sent_witness :
  wire (fst (on_benchmark_complete 7.1 always_ok (pushed "u" 7 100)))
    = [Patch "u" 100].
Proof.
  exact (completion_push_always_sent 7.1 always_ok (pushed "u" 7 100)
           open_session eq_refl eq_refl).
Defined.

Lemma first_push_always_sent_witness :
  let w0 := fst (on_initialize (World (__init__ "u" (Some "key")) [])) in
  _last_progress (self w0) < 0 /\
  _last_update_ts (self w0) == 0 /\
  (exists sess, session (self w0) = Some sess /\ closed sess = false) /\
  wire (fst (_update_progress 1700000000 always_ok 0 w0)) = [Patch "u" 0].
Proof.
  apply (first_push_always_sent "u" (Some "key") 1700000000 always_ok 0).
  - vm_compute; discriminate.
  - vm_compute; discriminate.
  - vm_compute; discriminate.
Defined.

Lemma push_without_session_is_noop_witness :
  let w := World (__init__ "u" None) [] in
  on_benchmark_start 1700000000 always_ok w = (w, Ok tt) /\
  on_benchmark_update 1700000000 always_ok (Some 0.25) w = (w, Ok tt) /\
  on_benchmark_complete 1700000000 always_ok w = (w, Ok tt).
Proof.
  exact (push_without_session_is_noop 1700000000 always_ok
           (World (__init__ "u" None) []) (Some 0.25) eq_refl).
Defined.

End ProgressSpec.

(* ===================================================================== *)
(** ** Further properties of the remote progress sink                    *)
(* ===================================================================== *)

Module SinkProps.
Import Py Eff Progress Lifecycle.
Local Open Scope Q_scope.

(** Every way a call of [_update_progress] can end. *)
Lemma _update_progress_cases now net p w :
  let r := _update_progress now net p w in
  let req := Patch (progress_url (self w)) p in
  r = (w, Ok tt) \/
  (exists msg, r = (w, Raise (Exn RuntimeError (failure_text ++ msg)))) \/
  (exists msg, r = (send req w, Raise (Exn RuntimeError (failure_text ++ msg)))) \/
  r = (set_last_update_ts now (set_last_progress p (send req w)), Ok tt).
Proof.
  cbv zeta. remember (_update_progress now net p w) as r eqn:Hr.
  unfold _update_progress, bind at 1, read in Hr. cbv beta iota in Hr.
  destruct (session (self w)) as [sess|]; [|left; exact Hr].
  destruct (should_update now (self w) p); cbn [negb] in Hr; [|left; exact Hr].
  unfold try_except, session_patch in Hr.
  destruct (closed sess).
  - right; left. eexists. exact Hr.
  - unfold bind, modify, lift, raise, ret, raise_for_status in Hr.
    destruct (net _) as [code|e].
    + destruct (400 <=? code)%Z.
      * right; right; left. eexists. exact Hr.
      * right; right; right. exact Hr.
    + right; right; left. eexists. exact Hr.
Qed.

Lemma on_initialize_cases w :
  (session (self w) = None /\
   on_initialize w =
     (set_session
        (Some {| headers := match progress_auth (self w) with
                            | Some a => {[ "Authorization" := ("Bearer " ++ a)%string ]}
                            | None => ∅
                            end;
                 timeout_total := 60; closed := false |}) w, Ok tt)) \/
  (session (self w) <> None /\ on_initialize w = (w, Ok tt)).
Proof.
  unfold on_initialize, bind, read. cbv beta iota.
  destruct (session (self w)) as [sess|] eqn:Hs.
  - right. split; [discriminate | reflexivity].
  - left. split; reflexivity.
Qed.


(** X2: [on_finalize] keeps the session object in the sink, so a later
    [on_initialize] does not open a new one: after Finalize, Initialize
    returns normally and leaves the sink with the session it closed. *)
Theorem initialize_after_finalize_keeps_session w sess :
  session (self w) = Some sess ->
  let w1 := fst (on_finalize w) in
  snd (on_finalize w) = Ok tt /\
  session (self w1) = Some {| headers := headers sess;
                              timeout_total := timeout_total sess;
                              closed := true |} /\
  on_initialize w1 = (w1, Ok tt).
Proof.
  intros Hs. cbv zeta. unfold on_finalize, on_initialize, bind, read, modify, ret.
  cbv beta iota. rewrite Hs. cbn. auto.
Qed.

(** One call: the url and the credential stay, and the wire gains
    nothing or the one request the call pushes. *)
Lemma invoke_frame s w :
  progress_url (self (fst (invoke s w))) = progress_url (self w) /\
  progress_auth (self (fst (invoke s w))) = progress_auth (self w) /\
  (wire (fst (invoke s w)) = wire w \/
   exists p, pushed_value (step_call s) = Some p /\
             wire (fst (invoke s w)) =
               wire w ++ [Patch (progress_url (self w)) p]).
Proof.
  unfold invoke.
  assert (Hpush : forall now net p,
            progress_url (self (fst (_update_progress now net p w)))
              = progress_url (self w) /\
            progress_auth (self (fst (_update_progress now net p w)))
              = progress_auth (self w) /\
            (wire (fst (_update_progress now net p w)) = wire w \/
             wire (fst (_update_progress now net p w)) =
               wire w ++ [Patch (progress_url (self w)) p])).
  { intros now net p.
    destruct (_update_progress_cases now net p w)
      as [-> | [[msg ->] | [[msg ->] | ->]]]; cbn; auto. }
  destruct (step_call s) as [ | | rf | | ].
  - destruct (on_initialize_cases w) as [[_ ->]|[_ ->]]; cbn; auto.
  - unfold on_benchmark_start.
    destruct (Hpush (step_now s) (step_net s) 0) as (? & ? & [?|?]); eauto 6.
  - unfold on_benchmark_update. fold (update_progress_value rf).
    destruct (Hpush (step_now s) (step_net s) (update_progress_value rf))
      as (? & ? & [?|?]); eauto 6.
  - unfold on_benchmark_complete.
    destruct (Hpush (step_now s) (step_net s) 100) as (? & ? & [?|?]); eauto 6.
  - unfold on_finalize, bind, read, modify, raise. cbv beta iota.
    destruct (session (self w)); cbn; auto.
Qed.

Lemma after_calls_cons s steps w :
  after_calls (s :: steps) w = after_calls steps (fst (invoke s w)).
Proof. reflexivity. Qed.

(** Over a run of calls: what the wire gains, request by request. *)
Lemma after_calls_wire steps : forall w,
  progress_url (self (after_calls steps w)) = progress_url (self w) /\
  progress_auth (self (after_calls steps w)) = progress_auth (self w) /\
  exists new,
    wire (after_calls steps w) = wire w ++ new /\
    (length new <= length steps)%nat /\
    Forall (fun r => req_url r = progress_url (self w) /\
                     exists s, In s steps /\
                       pushed_value (step_call s) = Some (req_progress r)) new.
Proof.
  induction steps as [|s steps IH]; intros w.
  - cbn. repeat split. exists []. rewrite app_nil_r. repeat split; auto.
  - rewrite after_calls_cons.
    destruct (invoke_frame s w) as (Hu & Ha & Hw).
    destruct (IH (fst (invoke s w))) as (Hu' & Ha' & new & Hnew & Hlen & Hall).
    rewrite Hu', Ha', Hu, Ha. repeat split.
    assert (Hall' : Forall (fun r => req_url r = progress_url (self w) /\
                     exists s0, In s0 (s :: steps) /\
                       pushed_value (step_call s0) = Some (req_progress r)) new).
    { eapply Forall_impl; [exact Hall|]. cbv beta.
      intros r (Hr & s0 & Hin & Hp). rewrite Hu in Hr.
      split; [exact Hr|]. exists s0. split; [right; exact Hin | exact Hp]. }
    destruct Hw as [Hw | (p & Hp & Hw)].
    + exists new. rewrite Hnew, Hw. repeat split; [cbn; lia | exact Hall'].
    + exists (Patch (progress_url (self w)) p :: new).
      rewrite Hnew, Hw, <- app_assoc. repeat split; [cbn; lia|].
      constructor; [|exact Hall'].
      split; [reflexivity|]. exists s. split; [left; reflexivity | exact Hp].
Qed.

(** X3: over any run of calls the sink keeps its url and credential,
    what was on the wire stays there, the run adds at most one request
    per call, and every request added goes to the url of the sink. *)
Theorem requests_go_to_configured_url steps w :
  progress_url (self (after_calls steps w)) = progress_url (self w) /\
  progress_auth (self (after_calls steps w)) = progress_auth (self w) /\
  exists new,
    wire (after_calls steps w) = wire w ++ new /\
    (length new <= length steps)%nat /\
    Forall (fun r => req_url r = progress_url (self w)) new.
Proof.
  destruct (after_calls_wire steps w) as (Hu & Ha & new & Hnew & Hlen & Hall).
  repeat split; [exact Hu | exact Ha |].
  exists new. repeat split; [exact Hnew | exact Hlen |].
  eapply Forall_impl; [exact Hall|]. intros r [Hr _]. exact Hr.
Qed.



(** X5: a sink that is never initialised sends nothing and stays as it
    is over any run of calls without [on_initialize] -- pushes return at
    once, and [on_finalize] raises [AttributeError] because there is no
    session to close. *)
Theorem uninitialised_sink_stays_silent steps w :
  session (self w) = None ->
  Forall (fun s => is_initialize (step_call s) = false) steps ->
  after_calls steps w = w /\
  on_finalize w =
    (w, Raise (Exn AttributeError "'NoneType' object has no attribute 'close'")).
Proof.
  intros Hs Hsteps. split.
  - induction Hsteps as [|s steps Hinit _ IH]; [reflexivity|].
    rewrite after_calls_cons.
    assert (E : fst (invoke s w) = w); [|rewrite E; exact IH].
    unfold invoke, on_benchmark_start, on_benchmark_update,
      on_benchmark_complete.
    destruct (step_call s); try discriminate Hinit.
    + unfold _update_progress, bind, read. cbv beta iota. rewrite Hs. reflexivity.
    + unfold _update_progress, bind, read. cbv beta iota. rewrite Hs. reflexivity.
    + unfold _update_progress, bind, read. cbv beta iota. rewrite Hs. reflexivity.
    + unfold on_finalize, bind, read. cbv beta iota. rewrite Hs. reflexivity.
  - unfold on_finalize, bind, read. cbv beta iota. rewrite Hs. reflexivity.
Qed.

(** X6: after a push that went through with value [p] at time [t], a
    push of a value below 100 and less than two points above [p],
    attempted less than a second later, is dropped: nothing is sent and
    the sink stays as the first push left it. *)
Theorem push_soon_after_success_is_dropped now net p w sess code now' net' q :
  session (self w) = Some sess -> closed sess = false ->
  should_update now (self w) p = true ->
  net (Patch (progress_url (self w)) p) = Status code -> (code < 400)%Z ->
  now' - now < 1 -> q < 100 -> q - p < 2 ->
  let w1 := fst (_update_progress now net p w) in
  snd (_update_progress now net p w) = Ok tt /\
  _update_progress now' net' q w1 = (w1, Ok tt).
Proof.
  intros Hs Hopen Hup Hnet Hcode Ht Hq Hd. cbv zeta.
  rewrite (ProgressSpec._update_progress_attempt _ _ _ _ _ Hs Hopen Hup), Hnet.
  destruct (400 <=? code)%Z eqn:E; [apply Z.leb_le in E; lia|].
  cbn [fst snd]. split; [reflexivity|].
  apply (ProgressSpec._update_progress_dropped _ _ _ _ sess); [exact Hs|].
  apply ProgressSpec.should_update_false. cbn. intros [H|[H|H]]; lra.
Qed.

(** X7: a push that passed the throttle and failed is tried again by the
    next attempt: with the same value, at the same or any later time, a
    request goes out again. *)
Theorem failed_push_is_tried_again now net p w sess e now' net' :
  session (self w) = Some sess -> closed sess = false ->
  should_update now (self w) p = true ->
  snd (_update_progress now net p w) = Raise e ->
  now <= now' ->
  let w1 := fst (_update_progress now net p w) in
  self w1 = self w /\
  wire (fst (_update_progress now' net' p w1)) =
    wire w1 ++ [Patch (progress_url (self w)) p].
Proof.
  intros Hs Hopen Hup Hraise Ht. cbv zeta.
  assert (Hself : self (fst (_update_progress now net p w)) = self w).
  { revert Hraise.
    rewrite (ProgressSpec._update_progress_attempt _ _ _ _ _ Hs Hopen Hup).
    destruct (net _) as [code|e']; [destruct (400 <=? code)%Z|];
      cbn; intros H; try discriminate H; reflexivity. }
  split; [exact Hself|].
  assert (Hs1 : session (self (fst (_update_progress now net p w))) = Some sess).
  { rewrite Hself. exact Hs. }
  rewrite (ProgressSpec.wire_attempt now' net' p _ sess Hs1 Hopen).
  - rewrite Hself. reflexivity.
  - rewrite Hself. apply ProgressSpec.should_update_true.
    apply ProgressSpec.should_update_true in Hup.
    destruct Hup as [H|[H|H]]; [left; lra | right; left; exact H | right; right; exact H].
Qed.


(** X9: a call of [_update_progress] never touches the session, and it
    changes the last-sent value and timestamp only when it put the
    request on the wire and returned normally -- then they are the value
    pushed and the time of the call. *)
Theorem throttle_state_changes_only_on_success now net p w :
  let r := _update_progress now net p w in
  session (self (fst r)) = session (self w) /\
  ((_last_progress (self (fst r)) = _last_progress (self w) /\
    _last_update_ts (self (fst r)) = _last_update_ts (self w)) \/
   (snd r = Ok tt /\
    wire (fst r) = wire w ++ [Patch (progress_url (self w)) p] /\
    _last_progress (self (fst r)) = p /\
    _last_update_ts (self (fst r)) = now)).
Proof.
  cbv zeta.
  destruct (_update_progress_cases now net p w)
    as [-> | [[msg ->] | [[msg ->] | ->]]]; cbn; auto 6.
Qed.

(** *** Worked examples *)

Lemma initialize_after_finalize_keeps_session_witness :
  let w1 := fst (on_finalize (pushed "u" 7 100)) in
  snd (on_finalize (pushed "u" 7 100)) = Ok tt /\
  session (self w1) = Some {| headers := ∅; timeout_total := 60;
                              closed := true |} /\
  on_initialize w1 = (w1, Ok tt).
Proof.
  exact (initialize_after_finalize_keeps_session (pushed "u" 7 100)
           open_session eq_refl).
Defined.


Lemma uninitialised_sink_stays_silent_witness :
  after_calls uninitialised_run (World (__init__ "u" None) [])
    = World (__init__ "u" None) [] /\
  on_finalize (World (__init__ "u" None) []) =
    (World (__init__ "u" None) [],
     Raise (Exn AttributeError "'NoneType' object has no attribute 'close'")).
Proof.
  apply uninitialised_sink_stays_silent.
  - reflexivity.
  - repeat constructor.
Defined.

(** The push of 0 at the start of the next strategy, half a second after
    the completion push of the previous one, is dropped. *)
Lemma push_soon_after_success_is_dropped_witness :
  let w1 := fst (_update_progress 7 always_ok 100 (pushed "u" 3 40)) in
  snd (_update_progress 7 always_ok 100 (pushed "u" 3 40)) = Ok tt /\
  _update_progress 7.5 always_ok 0 w1 = (w1, Ok tt).
Proof.
  apply (push_soon_after_success_is_dropped
           7 always_ok 100 (pushed "u" 3 40) open_session 200 7.5 always_ok 0).
  - reflexivity.
  - reflexivity.
  - reflexivity.
  - reflexivity.
  - lia.
  - lra.
  - lra.
  - lra.
Defined.

Lemma failed_push_is_tried_again_witness :
  let w1 := fst (_update_progress 0.5 always_503 13 (pushed "u" 0 10)) in
  self w1 = self (pushed "u" 0 10) /\
  wire (fst (_update_progress 0.6 always_ok 13 w1)) =
    wire w1 ++ [Patch "u" 13].
Proof.
  apply (failed_push_is_tried_again
           0.5 always_503 13 (pushed "u" 0 10) open_session
           (Exn RuntimeError "Failed to update progress to server: bad status")
           0.6 always_ok).
  - reflexivity.
  - reflexivity.
  - reflexivity.
  - reflexivity.
  - lra.
Defined.

End SinkProps.

(* ===================================================================== *)
(** ** Further properties of [add_streaming_line]                        *)
(* ===================================================================== *)

Module HandlerProps.
Import Py Eff Handler HandlerMore.

Section AnyExtractor.

Variable extract_line_data : string -> res value.
Variable extract_choices_and_usage : value -> res (value * value).

Notation after_id := (Handler.after_id extract_choices_and_usage).

Lemma fragment_not_none content reasoning :
  fragment content reasoning <> PNone.
Proof.
  unfold fragment, or_.
  destruct (truthy content) eqn:Ec.
  - rewrite Ec. intros ->. discriminate Ec.
  - destruct (truthy reasoning) eqn:Er; [|discriminate].
    intros E. rewrite E in Er. discriminate Er.
Qed.

(** Every way the part after the identifier step can end. *)
Lemma after_id_cases data s :
  (exists e, after_id data s = (s, Raise e)) \/
  (exists u, after_id data s = (store_usage u s, Ok (Some 0%Z))) \/
  (exists c rc u,
     token_detected c rc = true /\
     after_id data s =
       (store_usage u (append_streaming_texts (fragment c rc) s),
        Ok (Some 1%Z))).
Proof.
  remember (after_id data s) as r eqn:Hr.
  unfold Handler.after_id, detect_token, bind, lift, ret, when, modify in Hr.
  destruct (extract_choices_and_usage data) as [[choices usage]|e];
    [|left; eauto].
  cbn [fst snd] in Hr.
  assert (Hzero : r = (store_usage usage s, Ok (Some 0%Z)) ->
          exists u, r = (store_usage u s, Ok (Some 0%Z))) by eauto.
  destruct (truthy choices).
  2:{ right; left. apply Hzero. rewrite Hr. unfold store_usage.
      destruct (truthy usage); reflexivity. }
  destruct (getitem0 choices) as [choice|e]; [|left; eauto].
  destruct (get choice "delta" (PDict ∅)) as [delta|e]; [|left; eauto].
  destruct (get delta "content" PNone) as [content|e]; [|left; eauto].
  destruct (get delta "reasoning_content" PNone) as [rc|e]; [|left; eauto].
  destruct (negb (is_none content) || negb (is_none rc)) eqn:Htok.
  - right; right. exists content, rc, usage. split; [exact Htok|].
    rewrite Hr. unfold store_usage. destruct (truthy usage); reflexivity.
  - right; left. apply Hzero. rewrite Hr. unfold store_usage.
    destruct (truthy usage); reflexivity.
Qed.

(** Every way the identifier step can end: the call stops there, with
    the handler as it was, or goes on with the identifier set or not. *)
Lemma call_cases line st :
  (exists r, add_streaming_line extract_line_data extract_choices_and_usage line st = (st, r) /\ r <> Ok (Some 1%Z)) \/
  (exists data st1,
     (st1 = st \/ exists v, st1 = set_streaming_response_id v st) /\
     add_streaming_line extract_line_data extract_choices_and_usage line st = after_id data st1).
Proof.
  remember (add_streaming_line extract_line_data extract_choices_and_usage line st) as r0 eqn:Hr.
  rewrite HandlerSpec.add_streaming_line_unfold in Hr.
  unfold bind at 1, lift at 1 in Hr.
  destruct (extract_line_data line) as [data|e];
    [|left; eexists; split; [exact Hr | discriminate]].
  destruct (truthy data).
  2:{ left. cbn in Hr. eexists; split; [exact Hr|].
      destruct (is_none data); discriminate. }
  cbn [negb] in Hr. cbv iota in Hr. unfold bind at 1, lift at 1 in Hr.
  destruct (contains "id" data) as [has_id|e];
    [|left; eexists; split; [exact Hr | discriminate]].
  unfold bind at 1, read in Hr. unfold bind at 1 in Hr.
  destruct (has_id && is_none (streaming_response_id st)).
  - unfold bind at 1, lift at 1 in Hr.
    destruct (getitem data "id") as [v|e];
      [|left; eexists; split; [exact Hr | discriminate]].
    right. exists data, (set_streaming_response_id v st). split; [eauto|].
    exact Hr.
  - right. exists data, st. split; [auto|]. exact Hr.
Qed.

Lemma texts_store_usage u s :
  streaming_texts (store_usage u s) = streaming_texts s.
Proof. unfold store_usage. destruct (truthy u); reflexivity. Qed.

Lemma usage_store_usage u s :
  streaming_usage (store_usage u s) = streaming_usage s \/
  truthy (streaming_usage (store_usage u s)) = true.
Proof. unfold store_usage. destruct (truthy u) eqn:E; cbn; auto. Qed.

(** What one call does to the texts and to the usage snapshot. *)
Lemma call_effect line st :
  ((snd (add_streaming_line extract_line_data extract_choices_and_usage line st) <> Ok (Some 1%Z) /\
    streaming_texts (fst (add_streaming_line extract_line_data extract_choices_and_usage line st)) = streaming_texts st) \/
   (snd (add_streaming_line extract_line_data extract_choices_and_usage line st) = Ok (Some 1%Z) /\
    exists frag, frag <> PNone /\
      streaming_texts (fst (add_streaming_line extract_line_data extract_choices_and_usage line st)) = streaming_texts st ++ [frag])) /\
  (streaming_usage (fst (add_streaming_line extract_line_data extract_choices_and_usage line st)) = streaming_usage st \/
   truthy (streaming_usage (fst (add_streaming_line extract_line_data extract_choices_and_usage line st))) = true).
Proof.
  destruct (call_cases line st) as [(r & -> & Hr) | (data & st1 & Hst1 & ->)].
  - cbn [fst snd]. auto.
  - assert (Ht : streaming_texts st1 = streaming_texts st).
    { destruct Hst1 as [->|[v ->]]; reflexivity. }
    assert (Hu : streaming_usage st1 = streaming_usage st).
    { destruct Hst1 as [->|[v ->]]; reflexivity. }
    destruct (after_id_cases data st1)
      as [[e ->] | [[u ->] | (c & rc & u & Htok & ->)]]; cbn [fst snd].
    + split; [left; split; [discriminate | exact Ht] | left; exact Hu].
    + rewrite texts_store_usage. split.
      * left; split; [discriminate | exact Ht].
      * rewrite <- Hu. apply usage_store_usage.
    + rewrite texts_store_usage. split.
      * right. split; [reflexivity|]. exists (fragment c rc).
        split; [apply fragment_not_none|]. cbn. rewrite Ht. reflexivity.
      * rewrite <- Hu.
        change (streaming_usage st1)
          with (streaming_usage (append_streaming_texts (fragment c rc) st1)).
        apply usage_store_usage.
Qed.

(** X10: the value returned and the accumulated texts always agree: the
    call returns 1 exactly when it appended one fragment, which is never
    [None]; on 0, on [None] and on an exception the texts are as they
    were. *)
Theorem token_signal_matches_append line st :
  (snd (add_streaming_line extract_line_data extract_choices_and_usage line st) = Ok (Some 1%Z) /\
   exists frag, frag <> PNone /\
     streaming_texts (fst (add_streaming_line extract_line_data extract_choices_and_usage line st)) = streaming_texts st ++ [frag]) \/
  (snd (add_streaming_line extract_line_data extract_choices_and_usage line st) <> Ok (Some 1%Z) /\
   streaming_texts (fst (add_streaming_line extract_line_data extract_choices_and_usage line st)) = streaming_texts st).
Proof. destruct (call_effect line st) as [[H|H] _]; auto. Qed.

Lemma feed_step line lines st :
  feed extract_line_data extract_choices_and_usage (line :: lines) st = feed extract_line_data extract_choices_and_usage lines (fst (add_streaming_line extract_line_data extract_choices_and_usage line st)).
Proof. reflexivity. Qed.

(** X11: over any run of calls the accumulated texts only grow: what was
    there stays in front, at most one fragment is added per line, and no
    fragment added is [None]. *)
Theorem streaming_texts_append_only lines : forall st,
  exists new,
    streaming_texts (feed extract_line_data extract_choices_and_usage lines st) = streaming_texts st ++ new /\
    (length new <= length lines)%nat /\
    Forall (fun frag => frag <> PNone) new.
Proof.
  induction lines as [|line lines IH]; intros st.
  - exists []. cbn. rewrite app_nil_r. repeat split; auto.
  - rewrite feed_step. destruct (IH (fst (add_streaming_line extract_line_data extract_choices_and_usage line st))) as (new & Hnew & Hlen & Hall).
    destruct (call_effect line st) as [[[_ Ht] | [_ (frag & Hfrag & Ht)]] _].
    + exists new. rewrite Hnew, Ht. repeat split; [cbn; lia | exact Hall].
    + exists (frag :: new). rewrite Hnew, Ht, <- app_assoc.
      repeat split; [cbn; lia | constructor; assumption].
Qed.

(** X12: a usage snapshot, once stored, is never cleared: whatever lines
    follow -- with no usage, with a null or an empty one -- the stored
    snapshot stays truthy. *)
Theorem usage_snapshot_never_cleared lines : forall st,
  truthy (streaming_usage st) = true ->
  truthy (streaming_usage (feed extract_line_data extract_choices_and_usage lines st)) = true.
Proof.
  induction lines as [|line lines IH]; intros st Hst; [exact Hst|].
  rewrite feed_step. apply IH.
  destruct (call_effect line st) as [_ [E|E]]; [rewrite E; exact Hst | exact E].
Qed.

Lemma no_payload_no_change line st :
  has_payload extract_line_data line = false ->
  fst (add_streaming_line extract_line_data extract_choices_and_usage line st) = st.
Proof.
  unfold has_payload. intros H.
  rewrite HandlerSpec.add_streaming_line_unfold. unfold bind at 1, lift at 1.
  destruct (extract_line_data line) as [data|e]; [|reflexivity].
  rewrite H. reflexivity.
Qed.

(** X13: lines that decode to nothing -- the end marker, blank or
    comment lines, a decoder that raises -- leave no trace: feeding the
    lines gives the same handler as feeding only those with a payload. *)
Theorem lines_without_payload_leave_no_trace lines : forall st,
  feed extract_line_data extract_choices_and_usage lines st =
  feed extract_line_data extract_choices_and_usage (filter (fun l => has_payload extract_line_data l = true) lines) st.
Proof.
  induction lines as [|line lines IH]; intros st; [reflexivity|].
  rewrite feed_step.
  destruct (has_payload extract_line_data line) eqn:E.
  - rewrite filter_cons_True by exact E. rewrite feed_step. apply IH.
  - rewrite filter_cons_False by (rewrite E; discriminate).
    rewrite (no_payload_no_change line st E). apply IH.
Qed.

(** X14: when the first choice has a [delta] that is not an object (a
    null, say), the call raises [AttributeError]; the identifier step
    has run, but nothing is appended and the usage record of the same
    line is not stored. *)
Theorem malformed_delta_raises_and_drops_usage line st d cd rest usage v :
  extract_line_data line = Ok (PDict d) -> d <> ∅ ->
  extract_choices_and_usage (PDict d) = Ok (PList (PDict cd :: rest), usage) ->
  cd !! "delta" = Some v -> is_dict v = false ->
  snd (add_streaming_line extract_line_data extract_choices_and_usage line st) =
    Raise (Exn AttributeError "object has no attribute 'get'") /\
  streaming_texts (fst (add_streaming_line extract_line_data extract_choices_and_usage line st)) = streaming_texts st /\
  streaming_usage (fst (add_streaming_line extract_line_data extract_choices_and_usage line st)) = streaming_usage st /\
  streaming_response_id (fst (add_streaming_line extract_line_data extract_choices_and_usage line st)) =
    (if is_none (streaming_response_id st)
     then default PNone (d !! "id") else streaming_response_id st).
Proof.
  intros Hd Hne Hcu Hdelta Hv.
  assert (Hafter : forall s,
            after_id (PDict d) s =
            (s, Raise (Exn AttributeError "object has no attribute 'get'"))).
  { intros s. unfold Handler.after_id, detect_token, bind, lift.
    rewrite Hcu. cbn [fst snd truthy getitem0 get]. rewrite Hdelta.
    cbn [default]. destruct v; try discriminate Hv; reflexivity. }
  rewrite (HandlerSpec.add_streaming_line_dict _ _ line d st Hd Hne), Hafter.
  cbn [fst snd].
  destruct (d !! "id") as [i|];
    destruct (is_none (streaming_response_id st)) eqn:E; cbn; auto.
  split_and!; try reflexivity.
  destruct (streaming_response_id st); try discriminate E; reflexivity.
Qed.

End AnyExtractor.

(** *** Worked examples *)

Notation odd_run :=
  (add_streaming_line odd_extract_line_data field_extract_choices_and_usage).
Notation odd_feed :=
  (feed odd_extract_line_data field_extract_choices_and_usage).

(** A usage chunk, then a chunk whose usage is null, then a token. *)
Lemma usage_snapshot_never_cleared_witness :
  truthy (streaming_usage
            (odd_feed ["usagenull"; "hello"; done_marker]
               (fst (odd_run "usage7" fresh)))) = true.
Proof.
  apply usage_snapshot_never_cleared. vm_compute. reflexivity.
Defined.

Lemma malformed_delta_raises_and_drops_usage_witness :
  snd (odd_run "nulldelta" fresh) =
    Raise (Exn AttributeError "object has no attribute 'get'") /\
  streaming_texts (fst (odd_run "nulldelta" fresh)) = [] /\
  streaming_usage (fst (odd_run "nulldelta" fresh)) = PNone /\
  streaming_response_id (fst (odd_run "nulldelta" fresh)) = PStr "chatcmpl-9".
Proof.
  pose (cd := ({[ "delta" := PNone ]} : gmap string value)).
  pose (us := PDict ({[ "total_tokens" := PInt 7 ]} : gmap string value)).
  pose (d := ({[ "id" := PStr "chatcmpl-9";
                 "choices" := PList [PDict cd];
                 "usage" := us ]} : gmap string value)).
  assert (Hid : default PNone (d !! "id") = PStr "chatcmpl-9")
    by (vm_compute; reflexivity).
  rewrite <- Hid.
  apply (malformed_delta_raises_and_drops_usage
           odd_extract_line_data field_extract_choices_and_usage
           "nulldelta" fresh d cd [] us PNone).
  - vm_compute; reflexivity.
  - apply insert_non_empty.
  - vm_compute; reflexivity.
  - vm_compute; reflexivity.
  - reflexivity.
Defined.


End HandlerProps.

(* ===================================================================== *)
(** ** Properties of the ShareGPT converter                              *)
(* ===================================================================== *)

Module ShareGPTProps.
Import Py PySeq ShareGPT.
Local Open Scope Z_scope.

Lemma truthy_not_none v : truthy v = true -> v <> PNone.
Proof. intros H ->. discriminate H. Qed.

Lemma default_truthy (o : option value) v :
  default PNone o = v -> truthy v = true -> o = Some v.
Proof.
  destruct o as [x|]; cbn; intros <- H; [reflexivity | discriminate H].
Qed.

(** The run of [extract_first_turn] on a sample whose conversations are
    a list that starts with two objects. *)
Lemma extract_first_turn_two_objects d f s rest :
  d !! "conversations" = Some (PList (PDict f :: PDict s :: rest)) ->
  extract_first_turn (PDict d) =
  if negb (in_pair (default PNone (f !! "from")) "human" "user") then Ok None
  else if negb (in_pair (default PNone (s !! "from")) "gpt" "assistant")
  then Ok None
  else if negb (truthy (default PNone (f !! "value")))
          || negb (truthy (default PNone (s !! "value")))
  then Ok None
  else Ok (Some (default PNone (f !! "value"), default PNone (s !! "value"))).
Proof.
  intros Hc. unfold extract_first_turn. cbn [get Res.bind]. rewrite Hc.
  cbn [default from_option id truthy negb len Res.bind].
  replace (Z.of_nat (length (PDict f :: PDict s :: rest)) <? 2) with false
    by (symmetry; apply Z.ltb_ge; cbn [length]; lia).
  cbn [index lookup list_lookup Res.bind get].
  destruct (in_pair (default PNone (f !! "from")) "human" "user");
    cbn [negb]; [|reflexivity].
  destruct (in_pair (default PNone (s !! "from")) "gpt" "assistant");
    cbn [negb]; reflexivity.
Qed.

(** X15: [extract_first_turn] returns a pair exactly for a sample that
    is an object whose conversations are a list starting with two
    objects, the first from "human" or "user", the second from "gpt" or
    "assistant", both with a truthy value; the pair is those two
    values, so neither part is ever empty or [None]. *)
Theorem extract_first_turn_some sample p c :
  extract_first_turn sample = Ok (Some (p, c)) <->
  exists d f s rest,
    sample = PDict d /\
    d !! "conversations" = Some (PList (PDict f :: PDict s :: rest)) /\
    in_pair (default PNone (f !! "from")) "human" "user" = true /\
    in_pair (default PNone (s !! "from")) "gpt" "assistant" = true /\
    f !! "value" = Some p /\ s !! "value" = Some c /\
    truthy p = true /\ truthy c = true.
Proof.
  split.
  - intros H. pose proof H as H0.
    destruct sample as [ | | | | | | d]; try discriminate H.
    unfold extract_first_turn in H. cbn [get Res.bind] in H.
    destruct (d !! "conversations") as [convs|] eqn:Hc;
      cbn [default from_option id] in H; [|discriminate H].
    destruct (truthy convs) eqn:Ht; cbn [negb] in H; [|discriminate H].
    destruct convs as [ | | | | str | l | dd]; try discriminate H.
    + (* a str: its elements are strs, without [get] *)
      cbn [len Res.bind] in H.
      destruct (Z.of_nat (String.length str) <? 2); [discriminate H|].
      destruct str as [|a [|b str]]; discriminate H.
    + destruct l as [|x [|y rest]]; [discriminate Ht | discriminate H |].
      cbn [len Res.bind] in H.
      destruct (Z.of_nat (length (x :: y :: rest)) <? 2); [discriminate H|].
      cbn [index lookup list_lookup Res.bind] in H.
      destruct x as [ | | | | | | f]; try discriminate H.
      cbn [get Res.bind] in H.
      destruct (negb (in_pair (default PNone (f !! "from")) "human" "user"));
        [discriminate H|].
      destruct y as [ | | | | | | s]; try discriminate H.
      clear H. rewrite (extract_first_turn_two_objects d f s rest Hc) in H0.
      destruct (in_pair (default PNone (f !! "from")) "human" "user") eqn:Hf;
        cbn [negb] in H0; [|discriminate H0].
      destruct (in_pair (default PNone (s !! "from")) "gpt" "assistant") eqn:Hs;
        cbn [negb] in H0; [|discriminate H0].
      destruct (truthy (default PNone (f !! "value"))) eqn:Htp;
        cbn [negb orb] in H0; [|discriminate H0].
      destruct (truthy (default PNone (s !! "value"))) eqn:Htc;
        cbn [negb orb] in H0; [|discriminate H0].
      injection H0 as Hp Hcpl.
      exists d, f, s, rest. rewrite Hp in Htp. rewrite Hcpl in Htc.
      split_and!; try reflexivity; try assumption.
      * apply default_truthy; assumption.
      * apply default_truthy; assumption.
    + cbn [len Res.bind] in H.
      destruct (Z.of_nat (size dd) <? 2); discriminate H.
  - intros (d & f & s & rest & -> & Hc & Hf & Hs & Hp & Hcpl & Htp & Htc).
    rewrite (extract_first_turn_two_objects d f s rest Hc), Hf, Hs, Hp, Hcpl.
    cbn [default from_option id negb]. rewrite Htp, Htc. reflexivity.
Qed.

(** X16: a sample object without conversations, with conversations that
    are falsy (null, an empty list) or with fewer than two of them is
    skipped: [extract_first_turn] returns [None] and does not raise. *)
Theorem short_conversation_is_skipped d :
  match d !! "conversations" with
  | None => True
  | Some convs =>
      truthy convs = false \/ exists n, len convs = Ok n /\ n < 2
  end ->
  extract_first_turn (PDict d) = Ok None.
Proof.
  unfold extract_first_turn. cbn [get Res.bind].
  destruct (d !! "conversations") as [convs|]; cbn [default from_option id].
  - intros [Hf | (n & Hn & Hlt)].
    + rewrite Hf. reflexivity.
    + destruct (truthy convs); [|reflexivity]. cbn [negb].
      rewrite Hn. cbn [Res.bind].
      replace (n <? 2) with true by (symmetry; apply Z.ltb_lt; exact Hlt).
      reflexivity.
  - intros _. reflexivity.
Qed.

(** X17: only the first two turns count: turns after the second do not
    change what [extract_first_turn] returns or raises. *)
Theorem later_turns_are_ignored (d : gmap string value) a b rest :
  extract_first_turn (PDict (<[ "conversations" := PList (a :: b :: rest) ]> d)) =
  extract_first_turn (PDict (<[ "conversations" := PList [a; b] ]> d)).
Proof.
  unfold extract_first_turn. cbn [get Res.bind].
  rewrite !lookup_insert_eq. cbn [default from_option id truthy negb len Res.bind].
  replace (Z.of_nat (length (a :: b :: rest)) <? 2) with false
    by (symmetry; apply Z.ltb_ge; cbn [length]; lia).
  reflexivity.
Qed.

Section Converter.

Variable count_tokens : value -> res Z.

Notation loop := (convert_loop count_tokens).

Lemma convert_loop_counted max_items samples : forall st st',
  loop max_items samples st = Ok st' ->
  counted st ->
  counted st' /\
  idx st' <= idx st + Z.of_nat (length samples) /\
  written st <= written st' /\
  (forall m, max_items = Some m -> written st < m -> written st' <= m).
Proof.
  induction samples as [|sample rest IH]; intros st st' H Hst.
  - cbn in H. injection H as <-. cbn. repeat split; try apply Hst; try lia.
  - cbn [convert_loop] in H. cbn [length].
    destruct (extract_first_turn sample) as [[[p c]|]|e]; cbn [Res.bind] in H;
      try discriminate H.
    + destruct (build_guidellm_record count_tokens p c) as [record|e];
        cbn [Res.bind] in H; [|discriminate H].
      set (st1 := {| records := records st ++ [record];
                     written := written st + 1;
                     skipped := skipped st; idx := idx st + 1 |}) in *.
      assert (Hst1 : counted st1).
      { destruct Hst as (Hw & Hs & Hi). unfold counted, st1. cbn.
        rewrite length_app. cbn. lia. }
      destruct (match max_items with
                | Some m => written st1 =? m
                | None => false
                end) eqn:Hbreak.
      * injection H as <-. split; [exact Hst1|].
        cbn. repeat split; lia.
      * destruct (IH st1 st' H Hst1) as (Hc & Hi & Hw & Hcap).
        split; [exact Hc|]. cbn in Hi, Hw. repeat split; try lia.
        intros m Hm Hlt. apply Hcap; [exact Hm|].
        rewrite Hm in Hbreak. apply Z.eqb_neq in Hbreak. cbn in *. lia.
    + set (st1 := {| records := records st; written := written st;
                     skipped := skipped st + 1; idx := idx st + 1 |}) in *.
      assert (Hst1 : counted st1).
      { destruct Hst as (Hw & Hs & Hi). unfold counted, st1. cbn. lia. }
      destruct (IH st1 st' H Hst1) as (Hc & Hi & Hw & Hcap).
      split; [exact Hc|]. cbn in Hi, Hw. repeat split; try lia.
      exact Hcap.
Qed.

(** X18: when the conversion completes, its statistics add up: [written]
    is the number of records handed to the writer, [skipped] is not
    negative, together they do not exceed the size of the dataset, and
    with a [max_items] of at least 1 no more than that many records are
    written. *)
Theorem conversion_statistics_add_up dataset max_items c :
  convert_sharegpt_to_guidellm count_tokens dataset max_items = Ok c ->
  stat_written c = Z.of_nat (length (output_records c)) /\
  0 <= stat_skipped c /\
  stat_written c + stat_skipped c <= Z.of_nat (length dataset) /\
  (forall m, max_items = Some m -> 1 <= m -> stat_written c <= m).
Proof.
  unfold convert_sharegpt_to_guidellm. intros H.
  destruct (loop max_items dataset start) as [st|e] eqn:Hloop;
    cbn [Res.bind] in H; [|discriminate H].
  injection H as <-. cbn.
  assert (Hstart : counted start) by (unfold counted; cbn; lia).
  destruct (convert_loop_counted max_items dataset start st Hloop Hstart)
    as ((Hw & Hs & Hi) & Hidx & _ & Hcap).
  cbn in Hidx. repeat split; try assumption; try lia.
  intros m Hm H1. apply (Hcap m Hm). cbn. lia.
Qed.

Lemma convert_loop_no_cap m samples : forall st,
  m <= written st ->
  loop (Some m) samples st = loop None samples st.
Proof.
  induction samples as [|sample rest IH]; intros st Hw; [reflexivity|].
  cbn [convert_loop].
  destruct (extract_first_turn sample) as [[[p c]|]|e]; cbn [Res.bind];
    try reflexivity.
  - destruct (build_guidellm_record count_tokens p c) as [record|e];
      cbn [Res.bind]; [|reflexivity].
    cbn [written].
    replace (written st + 1 =? m) with false
      by (symmetry; apply Z.eqb_neq; lia).
    apply IH. cbn. lia.
  - apply IH. cbn. exact Hw.
Qed.

(** X19: a [max_items] of 0, or a negative one, is no limit at all: the
    count of written records is compared after it was incremented, so it
    never equals such a value and the conversion runs as without
    [max_items]. *)
Theorem max_items_below_one_is_no_limit dataset m :
  m <= 0 ->
  convert_sharegpt_to_guidellm count_tokens dataset (Some m) = convert_sharegpt_to_guidellm count_tokens dataset None.
Proof.
  intros Hm. unfold convert_sharegpt_to_guidellm.
  rewrite convert_loop_no_cap by (cbn; exact Hm). reflexivity.
Qed.

(** The records the loop adds, for a tokenizer that never raises. *)
Lemma convert_loop_records (tokens : value -> Z) max_items samples :
  (forall v, count_tokens v = Ok (tokens v)) ->
  Forall (fun s => exists r, extract_first_turn s = Ok r) samples ->
  forall st, exists st',
    loop max_items samples st = Ok st' /\
    records st' =
      records st ++
      map (fun pc => PDict {[ "text" := fst pc;
                              "output_tokens_count" := PInt (tokens (snd pc)) ]})
          (match max_items with
           | Some m => if written st <? m
                       then firstn (Z.to_nat (m - written st))
                                   (omap first_turn samples)
                       else omap first_turn samples
           | None => omap first_turn samples
           end).
Proof.
  intros Htok Hall. induction Hall as [|sample rest [r Hr] _ IH]; intros st.
  - exists st. split; [reflexivity|]. cbn.
    destruct max_items as [m|]; [destruct (written st <? m)|];
      rewrite ?firstn_nil; cbn; rewrite app_nil_r; reflexivity.
  - assert (Hft : omap first_turn (sample :: rest) =
                  match r with
                  | Some pc => pc :: omap first_turn rest
                  | None => omap first_turn rest
                  end).
    { cbn [omap list_omap]. unfold first_turn at 1. rewrite Hr.
      destruct r; reflexivity. }
    rewrite Hft. clear Hft.
    cbn [convert_loop]. rewrite Hr. cbn [Res.bind].
    destruct r as [[p c]|].
    + unfold build_guidellm_record. rewrite Htok. cbn [Res.bind written].
      set (record := PDict {[ "text" := p;
                              "output_tokens_count" := PInt (tokens c) ]}).
      set (st1 := {| records := records st ++ [record];
                     written := written st + 1;
                     skipped := skipped st; idx := idx st + 1 |}).
      destruct max_items as [m|].
      * destruct (written st + 1 =? m) eqn:Hbreak.
        -- apply Z.eqb_eq in Hbreak. exists st1. split; [reflexivity|].
           replace (written st <? m) with true
             by (symmetry; apply Z.ltb_lt; lia).
           replace (Z.to_nat (m - written st)) with 1%nat by lia.
           cbn. rewrite firstn_O. reflexivity.
        -- apply Z.eqb_neq in Hbreak.
           destruct (IH st1) as (st' & Hloop & Hrec). exists st'.
           split; [exact Hloop|]. rewrite Hrec. cbn [records written st1].
           rewrite <- app_assoc. f_equal.
           destruct (written st <? m) eqn:Hlt.
           ++ apply Z.ltb_lt in Hlt.
              replace (written st + 1 <? m) with true
                by (symmetry; apply Z.ltb_lt; lia).
              replace (Z.to_nat (m - written st))
                with (S (Z.to_nat (m - (written st + 1)))) by lia.
              reflexivity.
           ++ apply Z.ltb_ge in Hlt.
              replace (written st + 1 <? m) with false
                by (symmetry; apply Z.ltb_ge; lia).
              reflexivity.
      * destruct (IH st1) as (st' & Hloop & Hrec). exists st'.
        split; [exact Hloop|]. rewrite Hrec. cbn [records st1].
        rewrite <- app_assoc. reflexivity.
    + destruct (IH {| records := records st; written := written st;
                      skipped := skipped st + 1; idx := idx st + 1 |})
        as (st' & Hloop & Hrec).
      exists st'. split; [exact Hloop|]. rewrite Hrec. reflexivity.
Qed.

(** X20: with a tokenizer that never raises, on a dataset whose samples
    [extract_first_turn] accepts or skips without raising, the
    conversion completes, and the records written are those of the
    samples that have a first turn, in dataset order, cut to the first
    [max_items] when that is at least 1; each record holds the prompt
    and the token count of the completion. *)
Theorem conversion_writes_first_turns (tokens : value -> Z) dataset max_items :
  (forall v, count_tokens v = Ok (tokens v)) ->
  Forall (fun s => exists r, extract_first_turn s = Ok r) dataset ->
  exists c,
    convert_sharegpt_to_guidellm count_tokens dataset max_items = Ok c /\
    output_records c =
      map (fun pc => PDict {[ "text" := fst pc;
                              "output_tokens_count" := PInt (tokens (snd pc)) ]})
          (capped max_items (omap first_turn dataset)) /\
    stat_written c = Z.of_nat (length (output_records c)).
Proof.
  intros Htok Hall.
  destruct (convert_loop_records tokens max_items dataset Htok Hall start)
    as (st & Hloop & Hrec).
  exists {| stat_written := written st; stat_skipped := skipped st;
            output_records := records st |}.
  unfold convert_sharegpt_to_guidellm. rewrite Hloop. cbn [Res.bind].
  split; [reflexivity|]. cbn [output_records stat_written]. split.
  - rewrite Hrec. cbn [records start written app]. unfold capped.
    destruct max_items as [m|]; [|reflexivity].
    destruct (0 <? m) eqn:E1; destruct (1 <=? m) eqn:E2;
      rewrite ?Z.sub_0_r; try reflexivity.
    + apply Z.ltb_lt in E1. apply Z.leb_gt in E2. lia.
    + apply Z.ltb_ge in E1. apply Z.leb_le in E2. lia.
  - assert (Hstart : counted start) by (unfold counted; cbn; lia).
    destruct (convert_loop_counted max_items dataset start st Hloop Hstart)
      as ((Hw & _) & _). exact Hw.
Qed.

End Converter.

(** *** Worked examples *)

Lemma short_conversation_is_skipped_witness :
  extract_first_turn
    (PDict {[ "conversations" := PList [turn "human" "One turn only"] ]})
  = Ok None.
Proof.
  apply short_conversation_is_skipped. rewrite lookup_singleton_eq.
  right. exists 1. split; [reflexivity | lia].
Defined.

Lemma conversion_statistics_add_up_witness :
  let c := {| stat_written := 2; stat_skipped := 2;
              output_records := [guidellm_record "Hi" 6;
                                 guidellm_record "2+2?" 1] |} in
  stat_written c = Z.of_nat (length (output_records c)) /\
  0 <= stat_skipped c /\
  stat_written c + stat_skipped c <= Z.of_nat (length sample_dataset) /\
  (forall m, Some 2 = Some m -> 1 <= m -> stat_written c <= m).
Proof.
  apply (conversion_statistics_add_up sample_count_tokens sample_dataset (Some 2)).
  vm_compute. reflexivity.
Defined.

Lemma max_items_below_one_is_no_limit_witness :
  convert_sharegpt_to_guidellm sample_count_tokens sample_dataset (Some 0) =
  convert_sharegpt_to_guidellm sample_count_tokens sample_dataset None.
Proof.
  apply max_items_below_one_is_no_limit. lia.
Defined.

Lemma conversion_writes_first_turns_witness :
  exists c,
    convert_sharegpt_to_guidellm sample_count_tokens sample_dataset (Some 2)
      = Ok c /\
    output_records c =
      map (fun pc => PDict {[ "text" := fst pc;
                              "output_tokens_count" := PInt (char_count (snd pc)) ]})
          (capped (Some 2) (omap first_turn sample_dataset)) /\
    stat_written c = Z.of_nat (length (output_records c)).
Proof.
  apply (conversion_writes_first_turns sample_count_tokens char_count).
  - intros v. reflexivity.
  - repeat constructor; eexists; vm_compute; reflexivity.
Defined.

End ShareGPTProps.

(* ===================================================================== *)
(** ** Properties of [_limit_items] and [prepare_datasets]               *)
(* ===================================================================== *)

Module OutputProps.
Import Py Output.
Local Open Scope Z_scope.

(** X21: [_limit_items] returns the items from the front, all of them
    without a limit and otherwise as many as the limit allows; a
    negative limit gives the empty list, as a limit of 0 does. *)
Theorem _limit_items_is_front items limit :
  (exists rest, items = _limit_items items limit ++ rest) /\
  length (_limit_items items limit) =
    match limit with
    | None => length items
    | Some l => Nat.min (Z.to_nat l) (length items)
    end /\
  (forall l, limit = Some l -> l <= 0 -> _limit_items items limit = []).
Proof.
  unfold _limit_items. destruct limit as [l|].
  - split_and!.
    + exists (skipn (Z.to_nat (Z.max l 0)) items).
      symmetry. apply firstn_skipn.
    + rewrite length_firstn. f_equal. lia.
    + intros l' [= <-] Hl. replace (Z.to_nat (Z.max l 0)) with 0%nat by lia.
      reflexivity.
  - split_and!; [exists []; rewrite app_nil_r; reflexivity | reflexivity |].
    intros l [=].
Qed.

Lemma _limit_items_is_front_witness :
  _limit_items [PInt 1; PInt 2; PInt 3] (Some (-1)) = [].
Proof.
  apply (proj2 (proj2 (_limit_items_is_front [PInt 1; PInt 2; PInt 3]
                         (Some (-1)))) (-1)); [reflexivity | lia].
Defined.

End OutputProps.

Module AdapterProps.
Import Py Adapter.

Section AnyPrepare.

Variable prepare : string -> res (list string).

Lemma prepare_loop_one_each (converted : string -> string) data :
  (forall s, supports s = true -> prepare s = Ok [converted s]) ->
  forall prepared,
    prepare_loop prepare data prepared =
    Ok (prepared ++ map (fun s => if supports s then converted s else s) data).
Proof.
  intros Hprep. induction data as [|source rest IH]; intros prepared.
  - cbn. rewrite app_nil_r. reflexivity.
  - cbn [prepare_loop map]. destruct (supports source) eqn:E.
    + rewrite (Hprep source E). cbn [Res.bind]. rewrite IH, <- app_assoc.
      reflexivity.
    + rewrite IH, <- app_assoc. reflexivity.
Qed.

(** X22: when [prepare] returns one path for every source the adapter
    supports, [prepare_datasets] keeps the order and the number of the
    sources: each supported source is replaced by its converted path and
    every other source is passed through as it is. *)
Theorem prepare_datasets_keeps_order (converted : string -> string) data :
  (forall s, supports s = true -> prepare s = Ok [converted s]) ->
  prepare_datasets prepare data =
  Ok (map (fun s => if supports s then converted s else s) data).
Proof.
  intros Hprep. unfold prepare_datasets.
  rewrite (prepare_loop_one_each converted data Hprep). reflexivity.
Qed.

Lemma prepare_loop_unsupported data :
  Forall (fun s => supports s = false) data ->
  forall prepared, prepare_loop prepare data prepared = Ok (prepared ++ data).
Proof.
  induction 1 as [|source rest Hs _ IH]; intros prepared.
  - cbn. rewrite app_nil_r. reflexivity.
  - cbn [prepare_loop]. rewrite Hs, IH, <- app_assoc. reflexivity.
Qed.

(** X23: sources the adapter does not support are never handed to
    [prepare]: whatever [prepare] would do, a list of such sources comes
    back unchanged and nothing is raised. *)
Theorem unsupported_sources_pass_through data :
  Forall (fun s => supports s = false) data ->
  prepare_datasets prepare data = Ok data.
Proof.
  intros H. unfold prepare_datasets.
  rewrite (prepare_loop_unsupported data H). reflexivity.
Qed.

End AnyPrepare.

Lemma prepare_datasets_keeps_order_witness :
  prepare_datasets sample_prepare
    ["prompts.jsonl"; "ShareGPT_V3.json"; "sharegpt.csv"] =
  Ok (map (fun s => if supports s then ("converted_" ++ s)%string else s)
          ["prompts.jsonl"; "ShareGPT_V3.json"; "sharegpt.csv"]).
Proof.
  apply (prepare_datasets_keeps_order sample_prepare
           (fun s => ("converted_" ++ s)%string)).
  intros s _. reflexivity.
Defined.

Lemma unsupported_sources_pass_through_witness :
  prepare_datasets (fun _ => Raise (Exn RuntimeError "no tokenizer"))
    ["prompts.jsonl"; "sharegpt.csv"; "SHAREGPT.JSON"] =
  Ok ["prompts.jsonl"; "sharegpt.csv"; "SHAREGPT.JSON"].
Proof.
  apply unsupported_sources_pass_through.
  repeat constructor.
Defined.

End AdapterProps.

(* ===================================================================== *)
(** ** Properties of the chained progress                                *)
(* ===================================================================== *)

Module ChainedSpec.
Import Py Lifecycle Chained.







End ChainedSpec.
